(** * Display Tools (Home Assistant integration): key normalisation,
      translation filtering and grouping, status record, cover images.

    A shallow embedding of [custom_components/display_tools/__init__.py]
    and [const.py].  Python values are an inductive type, [str] is a list
    of code points, [dict] is an insertion-ordered association list, and
    [try]/[except] is an error monad.  Library calls the module makes
    ([json.loads], [str], the translation backend, the HTTP client, Pillow)
    are fields of interfaces, so that the results hold for every behaviour
    of the library; a reference JSON reader is given to run the examples. *)

From Stdlib Require Import List ZArith NArith Bool Lia String Ascii.
From Stdlib Require Import Floats.SpecFloat DecimalString.
Import ListNotations.

Set Warnings "-register-all".

(* ================================================================== *)
(** ** Python strings *)

Module PyStr.

(** A [str] is a sequence of Unicode code points. *)
Definition pystr := list N.

(** [u "abc"] is the [str] of an ASCII literal. *)
Definition u (s : string) : pystr :=
  map N_of_ascii (list_ascii_of_string s).

Fixpoint eqb (a b : pystr) : bool :=
  match a, b with
  | [], [] => true
  | x :: a', y :: b' => N.eqb x y && eqb a' b'
  | _, _ => false
  end.

Definition nonempty (s : pystr) : bool :=
  match s with [] => false | _ :: _ => true end.

(** Code points for which [str.isspace] holds; these are the ones
    [str.strip()] removes. *)
Definition is_space (c : N) : bool :=
  ((9 <=? c) && (c <=? 13)
   || (28 <=? c) && (c <=? 32)
   || (c =? 133) || (c =? 160) || (c =? 5760)
   || (8192 <=? c) && (c <=? 8202)
   || (c =? 8232) || (c =? 8233) || (c =? 8239)
   || (c =? 8287) || (c =? 12288))%N.

Fixpoint lstrip (s : pystr) : pystr :=
  match s with
  | [] => []
  | c :: r => if is_space c then lstrip r else s
  end.

Definition rstrip (s : pystr) : pystr := rev (lstrip (rev s)).

(** [s.strip()] *)
Definition strip (s : pystr) : pystr := rstrip (lstrip s).

(** [s.split(sep)] for a one-character separator: always at least one
    piece, empty pieces kept. *)
Fixpoint split (sep : N) (s : pystr) : list pystr :=
  match s with
  | [] => [[]]
  | c :: r =>
      if N.eqb c sep then [] :: split sep r
      else match split sep r with
           | p :: ps => (c :: p) :: ps
           | [] => [[c]]
           end
  end.

Definition comma : N := 44.
Definition dot : N := 46.
Definition slash : N := 47.

(** [s.startswith(c)] for a one-character prefix. *)
Definition startswith (s : pystr) (c : N) : bool :=
  match s with
  | x :: _ => N.eqb x c
  | [] => false
  end.

End PyStr.
Export PyStr.

(* ================================================================== *)
(** ** Exceptions and the error monad *)

(** The exception classes that occur.  Every one is a subclass of
    [Exception]; what only derives from [BaseException] (interrupts,
    task cancellation) is outside the model. *)
Inductive exn : Type :=
| JSONDecodeError
| RecursionError
| TypeError
| AttributeError
| KeyError
| ValueError
| OSError
| ClientError
| OtherException (name : pystr).

Inductive exc (A : Type) : Type :=
| Ret (a : A)
| Raise (e : exn).
Arguments Ret {A} a.
Arguments Raise {A} e.

Definition bind {A B} (m : exc A) (k : A -> exc B) : exc B :=
  match m with
  | Ret a => k a
  | Raise e => Raise e
  end.

Declare Scope exc_scope.
Delimit Scope exc_scope with exc.
Notation "x <- m ;; k" := (bind m (fun x => k))
  (at level 100, m at next level, right associativity) : exc_scope.
Open Scope exc_scope.

(** [try: m  except C as e: h e], where [catches] decides
    [isinstance(e, C)]. *)
Definition try_except {A} (m : exc A) (catches : exn -> bool)
    (h : exn -> exc A) : exc A :=
  match m with
  | Ret a => Ret a
  | Raise e => if catches e then h e else Raise e
  end.

(** [except json.JSONDecodeError] *)
Definition is_JSONDecodeError (e : exn) : bool :=
  match e with JSONDecodeError => true | _ => false end.

(** [except Exception] *)
Definition is_Exception (e : exn) : bool := true.

(* ================================================================== *)
(** ** Python values *)

(** The values service data and parsed JSON are made of.  A [float] is
    an IEEE 754 binary64 number; a [dict] has [str] keys. *)
Inductive pyval : Type :=
| PNone
| PBool (b : bool)
| PInt (z : Z)
| PFloat (f : spec_float)
| PStr (s : pystr)
| PBytes (b : list N)
| PList (l : list pyval)
| PTuple (l : list pyval)
| PDict (items : list (pystr * pyval)).

(** Insertion-ordered dictionary with [str] keys. *)
Module Dict.

Definition dict (V : Type) := list (pystr * V).

(** [d.get(k)] *)
Fixpoint get {V} (d : dict V) (k : pystr) : option V :=
  match d with
  | [] => None
  | (k', v) :: r => if PyStr.eqb k' k then Some v else get r k
  end.

(** [k in d] *)
Definition contains {V} (d : dict V) (k : pystr) : bool :=
  match get d k with Some _ => true | None => false end.

(** [d[k] = v]: an existing key keeps its position, a new key goes
    last. *)
Fixpoint set {V} (d : dict V) (k : pystr) (v : V) : dict V :=
  match d with
  | [] => [(k, v)]
  | (k', v') :: r =>
      if PyStr.eqb k' k then (k', v) :: r else (k', v') :: set r k v
  end.

(** [d.update(e)]: the entries of [e] are assigned in order. *)
Definition update {V} (d e : dict V) : dict V :=
  fold_left (fun acc kv => set acc (fst kv) (snd kv)) e d.

(** [list(d)], [d.keys()] *)
Definition keys {V} (d : dict V) : list pystr := map fst d.

(** [len(d)] *)
Definition len {V} (d : dict V) : Z := Z.of_nat (List.length d).

End Dict.
Import Dict.

(** [bool(v)]: the test made by [if v:] and [if not v:]. *)
Definition is_float_zero (f : spec_float) : bool :=
  match f with S754_zero _ => true | _ => false end.

Definition truthy (v : pyval) : bool :=
  match v with
  | PNone => false
  | PBool b => b
  | PInt z => negb (Z.eqb z 0)
  | PFloat f => negb (is_float_zero f)
  | PStr s => nonempty s
  | PBytes b => match b with [] => false | _ => true end
  | PList l => match l with [] => false | _ => true end
  | PTuple l => match l with [] => false | _ => true end
  | PDict d => match d with [] => false | _ => true end
  end.

(** [iter(v)] run to the end: the elements a [for] loop or [list(v)]
    sees.  Scalars are not iterable. *)
Definition py_iter (v : pyval) : exc (list pyval) :=
  match v with
  | PList l | PTuple l => Ret l
  | PStr s => Ret (map (fun c => PStr [c]) s)
  | PBytes b => Ret (map (fun c => PInt (Z.of_N c)) b)
  | PDict d => Ret (map PStr (keys d))
  | PNone | PBool _ | PInt _ | PFloat _ => Raise TypeError
  end.

(** [len(v)] *)
Definition py_len (v : pyval) : exc Z :=
  match v with
  | PList l | PTuple l => Ret (Z.of_nat (List.length l))
  | PStr s | PBytes s => Ret (Z.of_nat (List.length s))
  | PDict d => Ret (len d)
  | PNone | PBool _ | PInt _ | PFloat _ => Raise TypeError
  end.

(** [hash(v)] succeeds: lists and dicts are unhashable, a tuple is
    hashable when its elements are. *)
Fixpoint hashable (v : pyval) : bool :=
  match v with
  | PList _ | PDict _ => false
  | PTuple l => forallb hashable l
  | _ => true
  end.

(** Library functions the handlers call.  [json_loads] is [json.loads]
    on a [str]; [py_str] is the builtin [str] on a value and [str_exn]
    on an exception; [json_dumps] is [json.dumps(d, ensure_ascii=False)]
    on a dict of strings. *)
Class Builtins : Type := {
  json_loads : pystr -> exc pyval;
  py_str : pyval -> exc pystr;
  str_exn : exn -> pystr;
  json_dumps : dict pystr -> pystr
}.

(* ================================================================== *)
(** ** const.py *)

Definition DOMAIN : pystr := u "display_tools".
Definition SENSOR_ENTITY_ID : pystr := u "sensor.display_tools".

Definition TRANSLATION_CATEGORIES : list pystr :=
  map u [ "title"; "state"; "entity"; "entity_component"; "exceptions";
          "config"; "config_subentries"; "config_panel"; "options";
          "device_automation"; "mfa_setup"; "system_health";
          "application_credentials"; "issues"; "selector"; "services" ]%string.

Definition COVER_SIZES : dict (Z * Z) :=
  [ (u "small", (120, 120)%Z); (u "large", (160, 160)%Z) ].

(* ================================================================== *)
(** ** Key normaliser (handle_get_translations_esphome, lines 305-342) *)

Section KeyNormalizer.

Context {B : Builtins}.

(** [[k.strip() for k in s.split(',') if k.strip()]] *)
Definition comma_split (s : pystr) : list pystr :=
  map strip (filter (fun k => nonempty (strip k)) (split comma s)).

(** The inner [try]: [json.loads], and on [JSONDecodeError] the
    comma split.  Lines 315-319 and 329-332 are this same block. *)
Definition loads_or_split (s : pystr) : exc pyval :=
  try_except (json_loads s) is_JSONDecodeError
    (fun _ => Ret (PList (map PStr (comma_split s)))).

(** [[str(x)]] *)
Definition str_singleton (x : pyval) : exc pyval :=
  s <- py_str x ;; Ret (PList [PStr s]).

(** The [if]/[elif] chain of lines 309-338, the body of the [try]
    of line 308. *)
Definition normalize_body (keys_raw : pyval) : exc pyval :=
  match keys_raw with
  | PList [single_item] =>
      match single_item with
      | PStr s => loads_or_split s
      | _ => str_singleton single_item
      end
  | PList _ => Ret keys_raw
  | PStr s => loads_or_split s
  | PTuple l => Ret (PList l)
  | PDict d => Ret (PList (map PStr (keys d)))
  | PNone | PBool _ | PInt _ | PFloat _ | PBytes _ =>
      str_singleton keys_raw
  end.

End KeyNormalizer.

(* ================================================================== *)
(** ** Translation filter and grouping *)

(** One turn of the loop of lines 96-100. *)
Definition filter_step (translations : dict pystr) (filtered : dict pystr)
    (key : pystr) : dict pystr :=
  match get translations key with
  | Some v => set filtered key v
  | None => set filtered key key
  end.

(** [_filter_translations_by_keys(translations, keys)]; [keys] is a
    [list[str]] or [None], and [not keys] holds for [None] and for the
    empty list. *)
Definition _filter_translations_by_keys (translations : dict pystr)
    (keys : option (list pystr)) : dict pystr :=
  match keys with
  | None | Some [] => translations
  | Some ks =>
      fold_left (filter_step translations) ks []
  end.

Definition component_prefix : pystr := u "component".

(** One turn of the loop of lines 354-364. *)
Definition group_step (grouped_translations : dict (dict pystr))
    (item : pystr * pystr) : dict (dict pystr) :=
  let (key, value) := item in
  let parts := split dot key in
  if (2 <=? List.length parts)%nat
     && PyStr.eqb (nth 0 parts []) component_prefix
  then
    let component := nth 1 parts [] in
    let final_key := last parts [] in
    let grouped :=
      if contains grouped_translations component then grouped_translations
      else set grouped_translations component [] in
    match get grouped component with
    | Some inner => set grouped component (set inner final_key value)
    | None => grouped
    end
  else grouped_translations.

(** Lines 353-364: the grouped translations of a flat mapping, whose
    items are visited in mapping order.  The loop only reads
    [translations]. *)
Definition group_translations (translations : dict pystr)
    : dict (dict pystr) :=
  fold_left group_step translations [].

(** [grouped[component][final_key]], when both keys are there. *)
Definition get2 (grouped : dict (dict pystr)) (c f : pystr)
    : option pystr :=
  match get grouped c with
  | Some inner => get inner f
  | None => None
  end.

(* ================================================================== *)
(** ** Images *)

Definition rgb := (Z * Z * Z)%type.
Definition black : rgb := (0, 0, 0)%Z.

(** A decoded picture.  [pixel x y] is the colour at column [x], row
    [y], as it is rendered into an RGB canvas; it is meaningful for
    [0 <= x < width] and [0 <= y < height]. *)
Record image : Type := mk_image {
  mode : pystr;
  width : Z;
  height : Z;
  pixel : Z -> Z -> rgb
}.

(** [Image.new('RGB', size, color)] *)
Definition image_new (size : Z * Z) (color : rgb) : image :=
  mk_image (u "RGB") (fst size) (snd size) (fun _ _ => color).

(** [canvas.paste(img, (x, y))]: the box of [img] placed with its top
    left corner at [(x, y)]; the rest of the canvas is untouched. *)
Definition paste (canvas img : image) (at_ : Z * Z) : image :=
  let (x, y) := at_ in
  mk_image (mode canvas) (width canvas) (height canvas)
    (fun i j =>
       if ((x <=? i) && (i <? x + width img)
           && (y <=? j) && (j <? y + height img))%Z
       then pixel img (i - x) (j - y)
       else pixel canvas i j).

(** What [Image.save(path, fmt, quality=q)] leaves on disk. *)
Record saved_file : Type := mk_saved {
  saved_format : pystr;
  saved_quality : Z;
  saved_image : image
}.

(* ================================================================== *)
(** ** Home Assistant state and the handler monad *)

(** One constructor per logging call of the module, with the values its
    message is formatted from. *)
Inductive logmsg : Type :=
| ErrFetchTranslations (language category : pystr) (e : exn)
| ErrEntityNotFound (entity_id : pystr)
| ErrNoEntityPicture (entity_id : pystr)
| ErrDownloadFailed (image_url : pystr) (status : Z)
| InfoCoverSaved (output_path : pystr) (target_size : Z * Z)
| ErrProcessingImage (e : exn)
| ErrDownloadAndProcess (e : exn)
| ErrProcessingKeys (e : exn)
| InfoSensorUpdated (groups : Z) (language : pystr)
| ErrTranslationsEsphome (e : exn)
| InfoProcessingCover (entity_id size : pystr)
| InfoCoverProcessed (entity_id : pystr)
| ErrCoverFailed (entity_id : pystr)
| ErrSaveMediaCover (e : exn).

(** [True] for the calls of [_LOGGER.error]. *)
Definition is_error (m : logmsg) : bool :=
  match m with
  | InfoCoverSaved _ _ | InfoSensorUpdated _ _
  | InfoProcessingCover _ _ | InfoCoverProcessed _ => false
  | _ => true
  end.

(** What the handlers read and write: the record kept by [Store], the
    state machine, the port of the HTTP server, the files under
    [/config], and the log (latest entry first). *)
Record hass : Type := mk_hass {
  stored : option (dict pyval);
  states : dict (pystr * dict pyval);
  server_port : Z;
  files : dict saved_file;
  log : list logmsg
}.

(** A handler: it may raise, and what it did before raising stays. *)
Definition M (A : Type) : Type := hass -> exc A * hass.

Definition ret {A} (a : A) : M A := fun h => (Ret a, h).

Definition raise {A} (e : exn) : M A := fun h => (Raise e, h).

Definition lift {A} (m : exc A) : M A := fun h => (m, h).

Definition mbind {A B} (m : M A) (k : A -> M B) : M B :=
  fun h =>
    match m h with
    | (Ret a, h') => k a h'
    | (Raise e, h') => (Raise e, h')
    end.

Declare Scope hass_scope.
Delimit Scope hass_scope with hass.
Notation "x <- m ;; k" := (mbind m (fun x => k))
  (at level 100, m at next level, right associativity) : hass_scope.
Notation "m ;; k" := (mbind m (fun _ => k))
  (at level 100, right associativity) : hass_scope.

(** [try: m  except C as e: h e] *)
Definition mtry {A} (m : M A) (catches : exn -> bool)
    (handler : exn -> M A) : M A :=
  fun h =>
    match m h with
    | (Ret a, h') => (Ret a, h')
    | (Raise e, h') => if catches e then handler e h' else (Raise e, h')
    end.

Definition logger (m : logmsg) : M unit :=
  fun h => (Ret tt,
            mk_hass (stored h) (states h) (server_port h) (files h)
                    (m :: log h)).

(** [await store.async_load()] *)
Definition store_async_load : M (option (dict pyval)) :=
  fun h => (Ret (stored h), h).

(** [await store.async_save(data)] *)
Definition store_async_save (data : dict pyval) : M unit :=
  fun h => (Ret tt,
            mk_hass (Some data) (states h) (server_port h) (files h)
                    (log h)).

(** [hass.states.get(entity_id)] *)
Definition states_get (entity_id : pystr)
    : M (option (pystr * dict pyval)) :=
  fun h => (Ret (get (states h) entity_id), h).

(** [hass.states.async_set(entity_id, state, attributes)] *)
Definition states_async_set (entity_id state : pystr)
    (attributes : dict pyval) : M unit :=
  fun h => (Ret tt,
            mk_hass (stored h)
                    (set (states h) entity_id (state, attributes))
                    (server_port h) (files h) (log h)).

Definition http_server_port : M Z :=
  fun h => (Ret (server_port h), h).

Definition write_file (path : pystr) (f : saved_file) : M unit :=
  fun h => (Ret tt,
            mk_hass (stored h) (states h) (server_port h)
                    (set (files h) path f) (log h)).

(** An HTTP response: its status, and what [await response.read()]
    gives. *)
Record response : Type := mk_response {
  status : Z;
  read : exc (list N)
}.

(** The platform and the libraries behind it.  Each call may raise. *)
Class Platform : Type := {
  (** [async_get_translations(hass, language, category)] *)
  async_get_translations : pystr -> pystr -> exc (dict pystr);
  (** [session.get(image_url)] *)
  session_get : pystr -> exc response;
  (** [Image.open(BytesIO(image_data))] *)
  image_open : list N -> exc image;
  (** [img.convert('RGB')] *)
  convert_rgb : image -> exc image;
  (** [img.thumbnail(size, Image.Resampling.LANCZOS)], as the image it
      leaves in [img] *)
  thumbnail : image -> Z * Z -> exc image;
  (** [os.makedirs(path, exist_ok=True)] *)
  os_makedirs : pystr -> exc unit;
  (** whether [new_img.save(path, ...)] fails *)
  save_check : pystr -> image -> exc unit
}.

(** [str(n)] for an [int]. *)
Definition str_of_int (z : Z) : pystr :=
  u (DecimalString.NilZero.string_of_int (Z.to_int z)).

(** [os.path.join(a, b)] on POSIX. *)
Definition os_path_join (a b : pystr) : pystr :=
  if startswith b slash then b
  else match rev a with
       | [] => b
       | c :: _ => if N.eqb c slash then a ++ b else a ++ slash :: b
       end.

Section Handlers.

Context {B : Builtins} {P : Platform}.
Local Open Scope hass_scope.

(** [_fetch_translations_for_category(hass, language, category)] *)
Definition _fetch_translations_for_category (language category : pystr)
    : M (dict pystr) :=
  mtry (lift (async_get_translations language category))
    is_Exception
    (fun e => logger (ErrFetchTranslations language category e) ;;
              ret []).

(** Lines 306-342: [keys] after the block, from [keys_raw]. *)
Definition normalize_keys (keys_raw : pyval) : M pyval :=
  match keys_raw with
  | PNone => ret PNone
  | _ => mtry (lift (normalize_body keys_raw)) is_Exception
           (fun e => logger (ErrProcessingKeys e) ;; ret PNone)
  end.

(** [isinstance(v, str)] *)
Definition is_str (v : pyval) : bool :=
  match v with PStr _ => true | _ => false end.

(** The strings among the elements of a list, in order. *)
Fixpoint strs_of (l : list pyval) : list pystr :=
  match l with
  | [] => []
  | PStr s :: r => s :: strs_of r
  | _ :: r => strs_of r
  end.

(** The keys lines 96-100 and 354-356 can work with: the elements
    [for key in keys] sees, when every one is a [str] ([keys] is
    annotated [list[str]]).  With anything else the [try] block of the
    handler raises before it reaches the store: an unhashable element
    at [key in translations] ([TypeError]); any other element that is
    not a [str] once it is a key of [filtered] and the grouping loop
    calls [key.split('.')] ([AttributeError], or [TypeError] for
    [bytes]). *)
Definition requested_keys (keys : pyval) : exc (list pystr) :=
  (l <- py_iter keys ;;
   if existsb (fun k => negb (hashable k)) l then Raise TypeError
   else match find (fun k => negb (is_str k)) l with
        | None => Ret (strs_of l)
        | Some (PBytes _) => Raise TypeError
        | Some _ => Raise AttributeError
        end)%exc.

(** [{component: json.dumps(component_translations, ...)}], added to
    the attributes in the order of [grouped_translations]. *)
Definition add_component_attributes (attributes : dict pyval)
    (grouped_translations : dict (dict pystr)) : dict pyval :=
  fold_left
    (fun attrs item => set attrs (fst item) (PStr (json_dumps (snd item))))
    grouped_translations attributes.

Definition pydict_of_strs (d : dict pystr) : pyval :=
  PDict (map (fun kv => (fst kv, PStr (snd kv))) d).

Definition pydict_of_grouped (g : dict (dict pystr)) : pyval :=
  PDict (map (fun kv => (fst kv, pydict_of_strs (snd kv))) g).

Definition pylist_of_strs (l : list pystr) : pyval := PList (map PStr l).

(** The argument of [stored_data.update], lines 371-377. *)
Definition status_fields (language category : pystr)
    (grouped_translations : dict (dict pystr))
    (translations : dict pystr) (requested : Z) : dict pyval :=
  [ (u "language", PStr language);
    (u "category", PStr category);
    (u "grouped_translations", pydict_of_grouped grouped_translations);
    (u "translations_count", PInt (len translations));
    (u "requested_keys_count", PInt requested) ].

(** The attributes of lines 383-392. *)
Definition sensor_attributes (language category : pystr)
    (translations : dict pystr) (requested : Z) : dict pyval :=
  [ (u "friendly_name", PStr (u "Display Tools"));
    (u "icon", PStr (u "mdi:monitor-dashboard"));
    (u "language", PStr language);
    (u "category", PStr category);
    (u "translations_count", PInt (len translations));
    (u "available_categories", pylist_of_strs TRANSLATION_CATEGORIES);
    (u "available_cover_sizes", pylist_of_strs (Dict.keys COVER_SIZES));
    (u "requested_keys_count", PInt requested) ].

(** [await store.async_load() or {}] *)
Definition loaded_or_empty (loaded : option (dict pyval)) : dict pyval :=
  match loaded with
  | Some ((_ :: _) as d) => d
  | _ => []
  end.

(** The [try] block of [handle_get_translations_esphome],
    lines 345-405. *)
Definition esphome_try (language category : pystr) (keys : pyval)
    : M unit :=
  translations <- _fetch_translations_for_category language category ;;
  translations <-
    (if truthy keys
     then ks <- lift (requested_keys keys) ;;
          ret (_filter_translations_by_keys translations (Some ks))
     else ret translations) ;;
  let grouped_translations := group_translations translations in
  loaded <- store_async_load ;;
  let stored_data := loaded_or_empty loaded in
  requested <- lift (if truthy keys then py_len keys else Ret 0%Z) ;;
  let stored_data :=
    update stored_data
      (status_fields language category grouped_translations
         translations requested) in
  store_async_save stored_data ;;
  let attributes :=
    sensor_attributes language category translations requested in
  let attributes :=
    add_component_attributes attributes grouped_translations in
  states_async_set SENSOR_ENTITY_ID language attributes ;;
  logger (InfoSensorUpdated (len grouped_translations) language).

(** Lines 411-421. *)
Definition error_state (e : exn) : M unit :=
  states_async_set SENSOR_ENTITY_ID (u "error")
    [ (u "friendly_name", PStr (u "Display Tools"));
      (u "icon", PStr (u "mdi:monitor-off"));
      (u "error", PStr (str_exn e));
      (u "available_categories",
         pylist_of_strs TRANSLATION_CATEGORIES);
      (u "available_cover_sizes", pylist_of_strs (Dict.keys COVER_SIZES)) ].

(** [handle_get_translations_esphome(call)], with
    [call.data.get] of ["language"], ["category"] and ["keys"]. *)
Definition handle_get_translations_esphome
    (language category : pystr) (keys_raw : pyval) : M unit :=
  keys <- normalize_keys keys_raw ;;
  mtry (esphome_try language category keys) is_Exception
    (fun e => logger (ErrTranslationsEsphome e) ;; error_state e).

End Handlers.

(* ================================================================== *)
(** ** Media cover *)

Definition output_dir : pystr := u "/config/www/display_tools".

Section Cover.

Context {P : Platform}.
Local Open Scope hass_scope.

(** Lines 164-168: the canvas with [img] pasted in its middle. *)
Definition center_on_canvas (img : image) (target_size : Z * Z)
    : image :=
  let new_img := image_new target_size black in
  let x := ((fst target_size - width img) / 2)%Z in
  let y := ((snd target_size - height img) / 2)%Z in
  paste new_img img (x, y).

(** Lines 151-158: decode, convert to RGB when the mode is RGBA or P,
    shrink. *)
Definition load_thumbnail (image_data : list N) (target_size : Z * Z)
    : exc image :=
  (img <- image_open image_data ;;
   img <- (if PyStr.eqb (mode img) (u "RGBA")
              || PyStr.eqb (mode img) (u "P")
           then convert_rgb img else Ret img) ;;
   thumbnail img target_size)%exc.

(** The inner [try] block, lines 150-179. *)
Definition process_image (image_data : list N) (target_size : Z * Z)
    : M bool :=
  img <- lift (load_thumbnail image_data target_size) ;;
  let new_img := center_on_canvas img target_size in
  lift (os_makedirs output_dir) ;;
  let output_path := os_path_join output_dir (u "cover.jpeg") in
  lift (save_check output_path new_img) ;;
  write_file output_path (mk_saved (u "JPEG") 85 new_img) ;;
  logger (InfoCoverSaved output_path target_size) ;;
  ret true.

(** [entity_picture.startswith('/')] and the URL built from it,
    lines 130-134. *)
Definition image_url_of (entity_picture : pyval) : M pystr :=
  match entity_picture with
  | PStr s =>
      if startswith s slash
      then port <- http_server_port ;;
           let base_url := u "http://localhost:" ++ str_of_int port in
           ret (base_url ++ s)
      else ret s
  | PBytes _ => raise TypeError
  | _ => raise AttributeError
  end.

(** The outer [try] block, lines 117-183. *)
Definition cover_try (entity_id size : pystr) : M bool :=
  state <- states_get entity_id ;;
  match state with
  | None => logger (ErrEntityNotFound entity_id) ;; ret false
  | Some (_, attributes) =>
      let entity_picture :=
        match get attributes (u "entity_picture") with
        | Some v => v
        | None => PNone
        end in
      if negb (truthy entity_picture)
      then logger (ErrNoEntityPicture entity_id) ;; ret false
      else
        image_url <- image_url_of entity_picture ;;
        target_size <-
          match get COVER_SIZES size with
          | Some t => ret t
          | None => raise KeyError
          end ;;
        resp <- lift (session_get image_url) ;;
        if negb (Z.eqb (status resp) 200)
        then logger (ErrDownloadFailed image_url (status resp)) ;;
             ret false
        else
          image_data <- lift (read resp) ;;
          mtry (process_image image_data target_size) is_Exception
            (fun e => logger (ErrProcessingImage e) ;; ret false)
  end.

(** [_download_and_process_cover(hass, entity_id, size)] *)
Definition _download_and_process_cover (entity_id size : pystr)
    : M bool :=
  mtry (cover_try entity_id size) is_Exception
    (fun e => logger (ErrDownloadAndProcess e) ;; ret false).

(** [handle_save_media_cover(call)] *)
Definition handle_save_media_cover (entity_id size : pystr) : M unit :=
  logger (InfoProcessingCover entity_id size) ;;
  mtry (success <- _download_and_process_cover entity_id size ;;
        if success : bool
        then logger (InfoCoverProcessed entity_id)
        else logger (ErrCoverFailed entity_id))
    is_Exception
    (fun e => logger (ErrSaveMediaCover e)).

End Cover.

(* ================================================================== *)
(** ** A reference reader for [json.loads]

    The general results take [json.loads] as given.  The examples run
    them on this reader: a tokeniser and a stack automaton for the JSON
    grammar as CPython's scanner accepts it ([NaN] and the infinities
    included), which raises in the order the text is read. *)

Module Json.

Inductive token : Type :=
| TLBracket | TRBracket | TLBrace | TRBrace | TComma | TColon
| TStr (s : pystr)
| TNum (lexeme : pystr)
| TWord (w : pystr)
| TBad.

Definition is_digit (c : N) : bool := ((48 <=? c) && (c <=? 57))%N.

Definition is_letter (c : N) : bool :=
  ((65 <=? c) && (c <=? 90) || (97 <=? c) && (c <=? 122))%N.

(** Characters a number lexeme is made of. *)
Definition is_num_char (c : N) : bool :=
  (is_digit c || (c =? 45) || (c =? 43) || (c =? 46)
   || (c =? 101) || (c =? 69))%N.

(** JSON white space: space, tab, line feed, carriage return. *)
Definition is_ws (c : N) : bool :=
  ((c =? 32) || (c =? 9) || (c =? 10) || (c =? 13))%N.

Definition hex_value (c : N) : option N :=
  (if is_digit c then Some (c - 48)
   else if (97 <=? c) && (c <=? 102) then Some (c - 87)
   else if (65 <=? c) && (c <=? 70) then Some (c - 55)
   else None)%N.

Definition is_high_surrogate (c : N) : bool :=
  ((55296 <=? c) && (c <=? 56319))%N.

Definition is_low_surrogate (c : N) : bool :=
  ((56320 <=? c) && (c <=? 57343))%N.

Definition join_surrogates (hi lo : N) : N :=
  (65536 + ((hi - 55296) * 1024 + (lo - 56320)))%N.

(** The character a one-letter escape stands for. *)
Definition escape_char (c : N) : option N :=
  (if c =? 34 then Some 34 else if c =? 92 then Some 92
   else if c =? 47 then Some 47 else if c =? 98 then Some 8
   else if c =? 102 then Some 12 else if c =? 110 then Some 10
   else if c =? 114 then Some 13 else if c =? 116 then Some 9
   else None)%N.

(** Where the tokeniser is: between tokens; in a string (characters
    read so far, latest first, and whether the latest is a high
    surrogate written as an escape); after a backslash; in the hex
    digits of a [\u] escape; in a number; in a word. *)
Inductive mode : Type :=
| Top
| InStr (acc : pystr) (high : bool)
| InEsc (acc : pystr) (high : bool)
| InHex (acc : pystr) (high : bool) (digits : list N)
| InNum (acc : pystr)
| InWord (acc : pystr).

Fixpoint span_digits (s : pystr) : pystr * pystr :=
  match s with
  | c :: r =>
      if is_digit c then let (d, rest) := span_digits r in (c :: d, rest)
      else ([], s)
  | [] => ([], [])
  end.

(** The longest prefix of a chunk that is a JSON number (an optional
    minus, then a zero or digits that do not start with zero, then
    optionally a dot and digits, then optionally an exponent), and
    what is left of the chunk. *)
Definition number_prefix (s : pystr) : option (pystr * pystr) :=
  let (sign, s1) :=
    match s with
    | 45%N :: r => ([45%N], r)
    | _ => ([], s)
    end in
  let int_part :=
    match s1 with
    | 48%N :: r => Some ([48%N], r)
    | _ => match span_digits s1 with
           | ([], _) => None
           | (d, r) => Some (d, r)
           end
    end in
  match int_part with
  | None => None
  | Some (i, s2) =>
      let (frac, s3) :=
        match s2 with
        | 46%N :: r =>
            match span_digits r with
            | ([], _) => ([], s2)
            | (d, r') => (46%N :: d, r')
            end
        | _ => ([], s2)
        end in
      let (ex, s4) :=
        match s3 with
        | e :: r =>
            if ((e =? 101) || (e =? 69))%N then
              let (sg, r1) :=
                match r with
                | c :: r' =>
                    if ((c =? 43) || (c =? 45))%N then ([c], r') else ([], r)
                | [] => ([], r)
                end in
              match span_digits r1 with
              | ([], _) => ([], s3)
              | (d, r') => (e :: sg ++ d, r')
              end
            else ([], s3)
        | [] => ([], s3)
        end in
      Some (sign ++ i ++ frac ++ ex, s4)
  end.

(** The tokens of a finished chunk of number characters. *)
Definition number_tokens (chunk : pystr) : list token :=
  match number_prefix chunk with
  | Some (lexeme, []) => [TNum lexeme]
  | Some (lexeme, _ :: _) => [TBad; TNum lexeme]
  | None => [TBad]
  end.

Definition words : list pystr :=
  map u ["null"; "true"; "false"; "NaN"; "Infinity"; "-Infinity"]%string.

Definition word_tokens (chunk : pystr) : list token :=
  if existsb (PyStr.eqb chunk) words then [TWord chunk] else [TBad].

(** A character met between tokens: the mode it leads to and the
    tokens it gives (latest first). *)
Definition start (c : N) : mode * list token :=
  (if is_ws c then (Top, [])
   else if c =? 91 then (Top, [TLBracket])
   else if c =? 93 then (Top, [TRBracket])
   else if c =? 123 then (Top, [TLBrace])
   else if c =? 125 then (Top, [TRBrace])
   else if c =? 44 then (Top, [TComma])
   else if c =? 58 then (Top, [TColon])
   else if c =? 34 then (InStr [] false, [])
   else if is_digit c || (c =? 45) then (InNum [c], [])
   else if is_letter c then (InWord [c], [])
   else (Top, [TBad]))%N.

Definition has_bad (l : list token) : bool :=
  match l with TBad :: _ => true | _ => false end.

(** The tokens of a text, latest first; [TBad] ends them at the first
    place no token can be read. *)
Fixpoint lex (s : pystr) (m : mode) (out : list token) : list token :=
  match s with
  | [] =>
      match m with
      | Top => out
      | InNum acc => number_tokens (rev acc) ++ out
      | InWord acc => word_tokens (rev acc) ++ out
      | _ => TBad :: out
      end
  | c :: r =>
      match m with
      | Top =>
          let (m', toks) := start c in
          if has_bad toks then toks ++ out else lex r m' (toks ++ out)
      | InStr acc high =>
          if (c =? 34)%N then lex r Top (TStr (rev acc) :: out)
          else if (c =? 92)%N then lex r (InEsc acc high) out
          else if (c <? 32)%N then TBad :: out
          else lex r (InStr (c :: acc) false) out
      | InEsc acc high =>
          if (c =? 117)%N then lex r (InHex acc high []) out
          else match escape_char c with
               | Some x => lex r (InStr (x :: acc) false) out
               | None => TBad :: out
               end
      | InHex acc high digits =>
          match hex_value c with
          | None => TBad :: out
          | Some d =>
              match digits with
              | [d1; d2; d3] =>
                  let code := (((d1 * 16 + d2) * 16 + d3) * 16 + d)%N in
                  match acc with
                  | hi :: acc' =>
                      if high && is_low_surrogate code
                      then lex r (InStr (join_surrogates hi code :: acc')
                                        false) out
                      else lex r (InStr (code :: acc)
                                        (is_high_surrogate code)) out
                  | [] => lex r (InStr [code] (is_high_surrogate code)) out
                  end
              | _ => lex r (InHex acc high (digits ++ [d])) out
              end
          end
      | InNum acc =>
          if is_num_char c then lex r (InNum (c :: acc)) out
          else if PyStr.eqb acc [45%N] && (c =? 73)%N
          then lex r (InWord [c; 45%N]) out
          else
            let toks := number_tokens (rev acc) in
            if has_bad toks then toks ++ out
            else let (m', toks') := start c in
                 if has_bad toks' then toks' ++ toks ++ out
                 else lex r m' (toks' ++ toks ++ out)
      | InWord acc =>
          if is_letter c then lex r (InWord (c :: acc)) out
          else
            let toks := word_tokens (rev acc) in
            if has_bad toks then toks ++ out
            else let (m', toks') := start c in
                 if has_bad toks' then toks' ++ toks ++ out
                 else lex r m' (toks' ++ toks ++ out)
      end
  end.

Definition tokens (s : pystr) : list token := rev (lex s Top []).

Definition digits_value (ds : pystr) : Z :=
  fold_left (fun acc c => (acc * 10 + Z.of_N (c - 48))%Z) ds 0%Z.

(** The binary64 number nearest to [m * 10^e10] (ties to even), for
    [0 <= m]. *)
Definition float_of_decimal (neg : bool) (m e10 : Z) : spec_float :=
  if (m =? 0)%Z then S754_zero neg
  else if (0 <=? e10)%Z
  then binary_normalize 53 1024
         (if neg then - (m * 10 ^ e10) else m * 10 ^ e10)%Z 0 false
  else
    let '(q, e, l) := SFdiv_core_binary 53 1024 m 0 (10 ^ (- e10))%Z 0 in
    binary_round_aux 53 1024 neg q e l.

(** [sys.int_info.default_max_str_digits] *)
Definition max_str_digits : nat := 4300.

(** The value of a number lexeme: an [int] when it has neither
    fraction nor exponent, else a [float]. *)
Definition number_value (lexeme : pystr) : exc pyval :=
  let (neg, body) :=
    match lexeme with
    | 45%N :: r => (true, r)
    | _ => (false, lexeme)
    end in
  let (i, r1) := span_digits body in
  match r1 with
  | [] =>
      if (max_str_digits <? List.length i)%nat then Raise ValueError
      else Ret (PInt (if neg then - digits_value i else digits_value i))
  | _ =>
      let (frac, r2) :=
        match r1 with
        | 46%N :: r => span_digits r
        | _ => ([], r1)
        end in
      let e :=
        match r2 with
        | _ :: 45%N :: d => (- digits_value d)%Z
        | _ :: 43%N :: d => digits_value d
        | _ :: d => digits_value d
        | [] => 0%Z
        end in
      Ret (PFloat (float_of_decimal neg (digits_value (i ++ frac))
                     (e - Z.of_nat (List.length frac))))
  end.

Definition word_value (w : pystr) : pyval :=
  if PyStr.eqb w (u "null") then PNone
  else if PyStr.eqb w (u "true") then PBool true
  else if PyStr.eqb w (u "false") then PBool false
  else if PyStr.eqb w (u "NaN") then PFloat S754_nan
  else if PyStr.eqb w (u "Infinity") then PFloat (S754_infinity false)
  else PFloat (S754_infinity true).

(** A container being read: an array with the elements so far, or an
    object with the items so far and the key whose value is awaited
    (both latest first). *)
Inductive frame : Type :=
| FArr (items : list pyval)
| FObj (items : list (pystr * pyval)) (key : pystr).

(** What may come next: a value (or, just after an opening bracket,
    the closing one); a key (or, just after an opening brace, the
    closing one); a colon; a comma or the end of the container; the
    end of the text. *)
Inductive state : Type :=
| SValue (closable : bool)
| SKey (closable : bool)
| SColon
| SAfter
| SDone (v : pyval).

(** The [dict] of the items of an object: a repeated key keeps its
    first place and its last value. *)
Definition dict_of_items (items : list (pystr * pyval)) : pyval :=
  PDict (fold_left (fun d kv => set d (fst kv) (snd kv)) items []).

(** A value is complete: it goes into the container on top of the
    stack, or is the result. *)
Definition complete (v : pyval) (stack : list frame)
    : state * list frame :=
  match stack with
  | [] => (SDone v, [])
  | FArr items :: r => (SAfter, FArr (v :: items) :: r)
  | FObj items k :: r => (SAfter, FObj ((k, v) :: items) k :: r)
  end.

(** One token.  [limit] is the nesting depth at which the scanner
    gives up with [RecursionError]. *)
Definition step (limit : nat) (t : token) (st : state)
    (stack : list frame) : exc (state * list frame) :=
  let too_deep := (limit <=? List.length stack)%nat in
  match st, t with
  | SValue _, TStr s => Ret (complete (PStr s) stack)
  | SValue _, TNum lexeme => v <- number_value lexeme ;; Ret (complete v stack)
  | SValue _, TWord w => Ret (complete (word_value w) stack)
  | SValue _, TLBracket =>
      if too_deep then Raise RecursionError
      else Ret (SValue true, FArr [] :: stack)
  | SValue _, TLBrace =>
      if too_deep then Raise RecursionError
      else Ret (SKey true, FObj [] [] :: stack)
  | SValue true, TRBracket =>
      match stack with
      | FArr [] :: r => Ret (complete (PList []) r)
      | _ => Raise JSONDecodeError
      end
  | SKey _, TStr k =>
      match stack with
      | FObj items _ :: r => Ret (SColon, FObj items k :: r)
      | _ => Raise JSONDecodeError
      end
  | SKey true, TRBrace =>
      match stack with
      | FObj items _ :: r => Ret (complete (dict_of_items (rev items)) r)
      | _ => Raise JSONDecodeError
      end
  | SColon, TColon => Ret (SValue false, stack)
  | SAfter, TComma =>
      match stack with
      | FArr _ :: _ => Ret (SValue false, stack)
      | FObj _ _ :: _ => Ret (SKey false, stack)
      | [] => Raise JSONDecodeError
      end
  | SAfter, TRBracket =>
      match stack with
      | FArr items :: r => Ret (complete (PList (rev items)) r)
      | _ => Raise JSONDecodeError
      end
  | SAfter, TRBrace =>
      match stack with
      | FObj items _ :: r => Ret (complete (dict_of_items (rev items)) r)
      | _ => Raise JSONDecodeError
      end
  | _, _ => Raise JSONDecodeError
  end.

Fixpoint run (limit : nat) (ts : list token) (st : state)
    (stack : list frame) : exc pyval :=
  match ts with
  | [] =>
      match st with
      | SDone v => Ret v
      | _ => Raise JSONDecodeError
      end
  | t :: r =>
      x <- step limit t st stack ;;
      run limit r (fst x) (snd x)
  end.

(** [json.loads(s)] for a [str]. *)
Definition loads (limit : nat) (s : pystr) : exc pyval :=
  run limit (tokens s) (SValue false) [].

End Json.

(** ** A reference environment *)

Module Reference.

(** [str(v)] for [None], a [bool], an [int] and a [str].  For a float,
    bytes or a container [str] is [repr], which is not worked out
    here: this environment answers [NotImplementedError] there, and no
    example passes through it. *)
Definition str (v : pyval) : exc pystr :=
  match v with
  | PNone => Ret (u "None")
  | PBool true => Ret (u "True")
  | PBool false => Ret (u "False")
  | PInt z => Ret (str_of_int z)
  | PStr s => Ret s
  | _ => Raise (OtherException (u "NotImplementedError"))
  end.

(** An exception is shown by the name of its class; its message is not
    modelled. *)
Definition exn_name (e : exn) : pystr :=
  match e with
  | JSONDecodeError => u "JSONDecodeError"
  | RecursionError => u "RecursionError"
  | TypeError => u "TypeError"
  | AttributeError => u "AttributeError"
  | KeyError => u "KeyError"
  | ValueError => u "ValueError"
  | OSError => u "OSError"
  | ClientError => u "ClientError"
  | OtherException n => n
  end.

Definition hex_digit (n : N) : N :=
  (if n <? 10 then 48 + n else 87 + n)%N.

(** A character inside a JSON string, with [ensure_ascii=False]: the
    quote, the backslash and the control characters are escaped. *)
Definition dumps_char (c : N) : pystr :=
  (if c =? 34 then [92; 34] else if c =? 92 then [92; 92]
   else if c =? 10 then [92; 110] else if c =? 13 then [92; 114]
   else if c =? 9 then [92; 116] else if c =? 8 then [92; 98]
   else if c =? 12 then [92; 102]
   else if c <? 32
   then [92; 117; 48; 48; hex_digit (c / 16); hex_digit (c mod 16)]
   else [c])%N.

Definition dumps_str (s : pystr) : pystr :=
  34%N :: flat_map dumps_char s ++ [34%N].

Fixpoint dumps_items (d : dict pystr) : pystr :=
  match d with
  | [] => []
  | [(k, v)] => dumps_str k ++ u ": " ++ dumps_str v
  | (k, v) :: r => dumps_str k ++ u ": " ++ dumps_str v ++ u ", "
                   ++ dumps_items r
  end.

(** [json.dumps(d, ensure_ascii=False)] for a dict of strings. *)
Definition dumps (d : dict pystr) : pystr :=
  123%N :: dumps_items d ++ [125%N].

(** [sys.getrecursionlimit()] as it is by default. *)
Definition recursion_limit : nat := 1000.

Definition cpython : Builtins :=
  {| json_loads := Json.loads recursion_limit;
     py_str := str;
     str_exn := exn_name;
     json_dumps := dumps |}.

End Reference.

(* ================================================================== *)
(** ** Notions used to state the properties *)

(** [key], split on ['.'], has at least two segments, the first is
    [component], the second is [c] and the last is [f]. *)
Definition grouped_under (key c f : pystr) : Prop :=
  let parts := split dot key in
  (2 <= List.length parts)%nat
  /\ nth 0 parts [] = component_prefix
  /\ nth 1 parts [] = c
  /\ last parts [] = f.

(** The slot of [grouped_translations] a key writes to, if any. *)
Definition slot_of (key : pystr) : option (pystr * pystr) :=
  let parts := split dot key in
  if (2 <=? List.length parts)%nat
     && PyStr.eqb (nth 0 parts []) component_prefix
  then Some (nth 1 parts [], last parts [])
  else None.

(** [s] between double quotes. *)
Definition quoted (s : pystr) : pystr := 34%N :: s ++ [34%N].

(** The state after [_LOGGER] has taken one more message. *)
Definition logged (m : logmsg) (h : hass) : hass :=
  mk_hass (stored h) (states h) (server_port h) (files h) (m :: log h).

(** A state with nothing stored, no entity and no file. *)
Definition hass0 : hass := mk_hass None [] 8123 [] [].

(** An exception that is not a [JSONDecodeError]: brackets nested
    deeper than the recursion limit. *)
Definition deep_brackets : pystr := repeat 91%N 1001.


(** *** Status record *)

Section StatusRecord.

Context {B : Builtins} {P : Platform}.

(** The translations the handler works with: fetched (nothing, when the
    backend raises), then filtered when [keys] is truthy. *)
Definition fetched (language category : pystr) : dict pystr :=
  match async_get_translations language category with
  | Ret t => t
  | Raise _ => []
  end.

Definition after_fetch (language category : pystr) (h : hass) : hass :=
  match async_get_translations language category with
  | Ret _ => h
  | Raise e => logged (ErrFetchTranslations language category e) h
  end.

Definition flat_translations (language category : pystr) (keys : pyval)
    : exc (dict pystr) :=
  if truthy keys
  then (ks <- requested_keys keys ;;
        Ret (_filter_translations_by_keys (fetched language category)
               (Some ks)))%exc
  else Ret (fetched language category).

Definition requested_count (keys : pyval) : exc Z :=
  if truthy keys then py_len keys else Ret 0%Z.

(** The state a successful run of the [try] block leaves. *)
Definition esphome_done (language category : pystr)
    (translations : dict pystr) (requested : Z) (h : hass) : hass :=
  let grouped := group_translations translations in
  mk_hass
    (Some (update (loaded_or_empty (stored h))
             (status_fields language category grouped translations
                requested)))
    (set (states h) SENSOR_ENTITY_ID
       (language,
        add_component_attributes
          (sensor_attributes language category translations requested)
          grouped))
    (server_port h) (files h)
    (InfoSensorUpdated (len grouped) language :: log h).

End StatusRecord.

(** The five fields the handler writes. *)
Definition status_field_names : list pystr :=
  map u [ "language"; "category"; "grouped_translations";
          "translations_count"; "requested_keys_count" ]%string.

(** *** Media cover *)

(** [state.attributes.get('entity_picture')] *)
Definition entity_picture_of (attributes : dict pyval) : pyval :=
  match get attributes (u "entity_picture") with
  | Some v => v
  | None => PNone
  end.

(** The address the picture is fetched from. *)
Definition image_url (entity_picture : pyval) (port : Z) : exc pystr :=
  match entity_picture with
  | PStr s =>
      Ret (if startswith s slash
           then (u "http://localhost:" ++ str_of_int port) ++ s
           else s)
  | PBytes _ => Raise TypeError
  | _ => Raise AttributeError
  end.

Definition cover_path : pystr := u "/config/www/display_tools/cover.jpeg".

(** The state after the cover has been written and the success
    logged. *)
Definition cover_written (img : image) (target_size : Z * Z) (h : hass)
    : hass :=
  mk_hass (stored h) (states h) (server_port h)
    (set (files h) cover_path
       (mk_saved (u "JPEG") 85 (center_on_canvas img target_size)))
    (InfoCoverSaved cover_path target_size :: log h).

Section CoverOutcome.

Context {P : Platform}.

(** The result of [process_image], step by step. *)
Definition process_outcome (image_data : list N) (target_size : Z * Z)
    (h : hass) : exc bool * hass :=
  match load_thumbnail image_data target_size with
  | Raise e => (Raise e, h)
  | Ret img =>
      match os_makedirs output_dir with
      | Raise e => (Raise e, h)
      | Ret _ =>
          match save_check cover_path (center_on_canvas img target_size) with
          | Raise e => (Raise e, h)
          | Ret _ => (Ret true, cover_written img target_size h)
          end
      end
  end.

(** The result of [_download_and_process_cover], step by step: the
    value returned and the state left. *)
Definition cover_outcome (entity_id size : pystr) (h : hass)
    : bool * hass :=
  let failed e := (false, logged (ErrDownloadAndProcess e) h) in
  match get (states h) entity_id with
  | None => (false, logged (ErrEntityNotFound entity_id) h)
  | Some (_, attributes) =>
      let entity_picture := entity_picture_of attributes in
      if negb (truthy entity_picture)
      then (false, logged (ErrNoEntityPicture entity_id) h)
      else
        match image_url entity_picture (server_port h) with
        | Raise e => failed e
        | Ret url =>
            match get COVER_SIZES size with
            | None => failed KeyError
            | Some target_size =>
                match session_get url with
                | Raise e => failed e
                | Ret resp =>
                    if negb (Z.eqb (status resp) 200)
                    then (false,
                          logged (ErrDownloadFailed url (status resp)) h)
                    else
                      match read resp with
                      | Raise e => failed e
                      | Ret image_data =>
                          match process_outcome image_data target_size h with
                          | (Ret b, h') => (b, h')
                          | (Raise e, h') =>
                              (false, logged (ErrProcessingImage e) h')
                          end
                      end
                end
            end
        end
  end.

End CoverOutcome.

(** The width of the picture saved under a path, if there is one. *)
Definition saved_width (h : hass) (path : pystr) : option Z :=
  match get (files h) path with
  | Some f => Some (width (saved_image f))
  | None => None
  end.

Local Open Scope Z_scope.


Local Close Scope Z_scope.

(* ================================================================== *)
(** ** A sample platform *)

Module Sample.

(** The size Pillow's [thumbnail] gives a [w] by [h] image for the box
    [(x, y)], in exact arithmetic: unchanged when the image fits;
    otherwise the side the aspect ratio leaves free is the floor or the
    ceiling of its exact value, whichever keeps the ratio closer, and
    at least one. *)
Definition thumbnail_size (w h x y : Z) : Z * Z :=
  (if (w <=? x) && (h <=? y) then (w, h)
   else if w * y <=? x * h
   then
     let f := (y * w) / h in
     let r := (y * w) mod h in
     (Z.max (if r <=? h - r then f else f + 1) 1, y)
   else
     let f := (x * h) / w in
     let r := (x * h) mod w in
     (x, Z.max (if (f =? 0) || (r * (f + 1) <=? (w - r) * f)
                then f else f + 1) 1))%Z.

(** A resampler: the nearest source pixel. *)
Definition resize (img : image) (size : Z * Z) : image :=
  mk_image (mode img) (fst size) (snd size)
    (fun i j => pixel img (i * width img / fst size)%Z
                          (j * height img / snd size)%Z).

Definition shrink (img : image) (box : Z * Z) : exc image :=
  Ret (resize img
         (thumbnail_size (width img) (height img) (fst box) (snd box))).

Definition white : rgb := (255, 255, 255)%Z.

(** A picture one pixel high. *)
Definition wide_image : image :=
  mk_image (u "RGBA") 1000 1 (fun _ _ => white).

Definition translations : dict pystr :=
  [ (u "component.vacuum.entity_component._.state.cleaning", u "Cleaning");
    (u "component.cover.state.open", u "Open");
    (u "title", u "Home") ].

Definition platform : Platform :=
  {| async_get_translations := fun _ _ => Ret translations;
     session_get := fun _ => Ret (mk_response 200 (Ret [255; 216; 255]%N));
     image_open := fun _ => Ret wide_image;
     convert_rgb := fun img =>
       Ret (mk_image (u "RGB") (width img) (height img) (pixel img));
     thumbnail := shrink;
     os_makedirs := fun _ => Ret tt;
     save_check := fun _ _ => Ret tt |}.

(** A platform on which every download answers 404. *)
Definition platform_404 : Platform :=
  {| async_get_translations := fun _ _ => Ret translations;
     session_get := fun _ => Ret (mk_response 404 (Ret []));
     image_open := fun _ => Ret wide_image;
     convert_rgb := fun img => Ret img;
     thumbnail := shrink;
     os_makedirs := fun _ => Ret tt;
     save_check := fun _ _ => Ret tt |}.

(** A state with a media player that shows a cover, and a record left
    in the store by an earlier version. *)
Definition player : pystr := u "media_player.living_room".

Definition hass1 : hass :=
  mk_hass
    (Some [ (u "language", PStr (u "en")); (u "theme", PStr (u "dark")) ])
    [ (player,
       (u "playing",
        [ (u "entity_picture", PStr (u "/api/media_player_proxy/x")) ])) ]
    8123 [] [].

End Sample.

(* ================================================================== *)
(** ** Notions used to state further properties *)

(** The value the filter gives a requested key. *)
Definition requested_value (translations : dict pystr) (k : pystr)
    : pystr :=
  match get translations k with Some v => v | None => k end.

(** A grouped mapping is well formed: no component twice, no component
    without a key, no key twice under a component. *)
Definition grouped_wf (g : dict (dict pystr)) : Prop :=
  NoDup (keys g)
  /\ forall c inner, In (c, inner) g -> inner <> [] /\ NoDup (keys inner).

(** [sep.join(l)] for a one-character separator. *)
Fixpoint join (sep : N) (l : list pystr) : pystr :=
  match l with
  | [] => []
  | [x] => x
  | x :: r => x ++ sep :: join sep r
  end.

(** A key as a caller means it: not empty, no space at either end, no
    comma inside. *)
Definition clean_key (k : pystr) : Prop :=
  k <> [] /\ strip k = k /\ ~ In comma k.

(* ================================================================== *)
(** ** The handlers that answer the caller *)

(** A loop whose body is a handler step. *)
Fixpoint mfold {A K : Type} (f : A -> K -> M A) (l : list K) (a : A)
    : M A :=
  match l with
  | [] => ret a
  | k :: r => mbind (f a k) (fun a' => mfold f r a')
  end.

Section ResponseHandlers.

Context {B : Builtins} {P : Platform}.
Local Open Scope hass_scope.


(** One turn of the loop of lines 250-253. *)
Definition raw_step (language : pystr) (result : dict (dict pystr))
    (category : pystr) : M (dict (dict pystr)) :=
  translations <- _fetch_translations_for_category language category ;;
  ret (match translations with
       | [] => result
       | _ :: _ => set result category translations
       end).

(** The [try] block of [handle_get_raw_translations], lines 247-259. *)
Definition get_raw_translations_try (language : pystr)
    : M (dict pyval) :=
  result <- mfold (raw_step language) TRANSLATION_CATEGORIES [] ;;
  ret [ (u "language", PStr language);
        (u "categories", pydict_of_grouped result);
        (u "total_categories", PInt (len result)) ].

(** The categories of the raw response: those whose fetched mapping is
    not empty, in the order of [TRANSLATION_CATEGORIES]. *)
Definition raw_categories (language : pystr) (categories : list pystr)
    : dict (dict pystr) :=
  fold_left
    (fun result category =>
       match fetched language category with
       | [] => result
       | _ :: _ => set result category (fetched language category)
       end)
    categories [].

(** The state after the fetches of a list of categories: one error in
    the log for each fetch that raised. *)
Definition after_fetches (language : pystr) (categories : list pystr)
    (h : hass) : hass :=
  fold_left (fun h0 category => after_fetch language category h0)
    categories h.

End ResponseHandlers.

(* ================================================================== *)
(** ** Life cycle: setting the entry up and unloading it *)

(** [json.dumps(v, ensure_ascii=False)] on a value read back from the
    store. *)
Class JsonEncoder : Type := {
  json_dumps_value : pyval -> exc pystr
}.

(** The one message [async_setup_entry] logs, with the number of
    groups it is formatted from. *)
Inductive lifecycle_msg : Type :=
| InfoRestored (groups : Z).

(** Home Assistant as the life-cycle functions see it: the state the
    handlers work on, whether [hass.data] has the entry of the domain,
    the services of the domain (with whether each one only answers
    with a response), and the messages logged. *)
Record instance : Type := mk_instance {
  core : hass;
  domain_data : bool;
  services : dict bool;
  lifecycle_log : list lifecycle_msg
}.

(** [d.pop(k, None)], [del d[k]] when the key is there. *)
Fixpoint dict_remove {V} (d : dict V) (k : pystr) : dict V :=
  match d with
  | [] => []
  | (k', v) :: r =>
      if PyStr.eqb k' k then dict_remove r k else (k', v) :: dict_remove r k
  end.

(** [d.get(k, default)] *)
Definition get_default (d : dict pyval) (k : pystr) (default : pyval)
    : pyval :=
  match get d k with Some v => v | None => default end.

(** The names of the four services, in the order they are registered. *)
Definition service_names : list pystr :=
  map u [ "get_raw_translations"; "get_translations";
          "get_translations_esphome"; "save_media_cover" ]%string.

Section LifeCycle.

Context {B : Builtins} {E : JsonEncoder}.

(** [str(new_state)], which [hass.states.async_set] applies to the
    state it is given. *)
Definition state_text (v : pyval) : exc pystr :=
  match v with
  | PStr s => Ret s
  | _ => py_str v
  end.

(** [v.items()]: only a dict has it. *)
Definition py_items (v : pyval) : exc (list (pystr * pyval)) :=
  match v with
  | PDict items => Ret items
  | _ => Raise AttributeError
  end.

(** The loop of lines 218-220. *)
Fixpoint restore_components (attributes : dict pyval)
    (items : list (pystr * pyval)) : exc (dict pyval) :=
  match items with
  | [] => Ret attributes
  | (component, component_translations) :: r =>
      (text <- json_dumps_value component_translations ;;
       restore_components (set attributes component (PStr text)) r)%exc
  end.

(** Lines 205-214. *)
Definition restored_attributes (stored_data : dict pyval) : dict pyval :=
  [ (u "friendly_name", PStr (u "Display Tools"));
    (u "icon", PStr (u "mdi:monitor-dashboard"));
    (u "language", get_default stored_data (u "language")
                     (PStr (u "unknown")));
    (u "category", get_default stored_data (u "category")
                     (PStr (u "unknown")));
    (u "translations_count",
       get_default stored_data (u "translations_count") (PInt 0));
    (u "available_categories", pylist_of_strs TRANSLATION_CATEGORIES);
    (u "available_cover_sizes", pylist_of_strs (Dict.keys COVER_SIZES));
    (u "requested_keys_count",
       get_default stored_data (u "requested_keys_count") (PInt 0)) ].

(** Lines 234-239. *)
Definition initial_attributes : dict pyval :=
  [ (u "friendly_name", PStr (u "Display Tools"));
    (u "icon", PStr (u "mdi:monitor-dashboard"));
    (u "available_categories", pylist_of_strs TRANSLATION_CATEGORIES);
    (u "available_cover_sizes", pylist_of_strs (Dict.keys COVER_SIZES)) ].

(** Lines 203-240: the sensor as [async_setup_entry] sets it, with the
    message it logs when it restores. *)
Definition setup_sensor (loaded : option (dict pyval))
    : exc ((pystr * dict pyval) * list lifecycle_msg) :=
  match loaded with
  | Some ((_ :: _) as stored_data) =>
      let grouped_translations :=
        get_default stored_data (u "grouped_translations") (PDict []) in
      (items <- py_items grouped_translations ;;
       attributes <-
         restore_components (restored_attributes stored_data) items ;;
       state <- state_text
                  (get_default stored_data (u "language")
                     (PStr (u "empty"))) ;;
       groups <- py_len grouped_translations ;;
       Ret ((state, attributes), [InfoRestored groups]))%exc
  | _ => Ret ((u "empty", initial_attributes), [])
  end.

(** Lines 442-470: [hass.services.async_register], four times. *)
Definition register_services (services : dict bool) : dict bool :=
  set (set (set (set services (u "get_raw_translations") true)
                (u "get_translations") true)
           (u "get_translations_esphome") false)
      (u "save_media_cover") false.

(** [async_setup_entry(hass, entry)]: nothing catches what it
    raises. *)
Definition async_setup_entry (i : instance) : exc bool * instance :=
  let i1 := mk_instance (core i) true (services i) (lifecycle_log i) in
  match setup_sensor (stored (core i)) with
  | Raise e => (Raise e, i1)
  | Ret ((state, attributes), msgs) =>
      let h := core i in
      let h' :=
        mk_hass (stored h)
          (set (states h) SENSOR_ENTITY_ID (state, attributes))
          (server_port h) (files h) (log h) in
      (Ret true,
       mk_instance h' true (register_services (services i))
         (msgs ++ lifecycle_log i))
  end.

(** [async_unload_entry(hass, entry)] *)
Definition async_unload_entry (i : instance) : exc bool * instance :=
  let h := core i in
  let h' :=
    mk_hass (stored h) (dict_remove (states h) SENSOR_ENTITY_ID)
      (server_port h) (files h) (log h) in
  (Ret true,
   mk_instance h' false
     (fold_left (fun s name => dict_remove s name) service_names
        (services i))
     (lifecycle_log i)).

End LifeCycle.

(** The dict of strings a value is, when it is one. *)
Fixpoint str_items (items : list (pystr * pyval)) : option (dict pystr) :=
  match items with
  | [] => Some []
  | (k, PStr s) :: r =>
      match str_items r with
      | Some d => Some ((k, s) :: d)
      | None => None
      end
  | _ => None
  end.

(** An encoder for the examples: [json.dumps] of a dict of strings, as
    the reference environment writes it.  Other values are not worked
    out: it answers [NotImplementedError] there, and no example passes
    through it. *)
Definition sample_encoder : JsonEncoder :=
  {| json_dumps_value := fun v =>
       match v with
       | PDict items =>
           match str_items items with
           | Some d => Ret (Reference.dumps d)
           | None => Raise (OtherException (u "NotImplementedError"))
           end
       | _ => Raise (OtherException (u "NotImplementedError"))
       end |}.

(** An instance around a state, before the entry is set up. *)
Definition instance_of (h : hass) : instance := mk_instance h false [] [].

(* ================================================================== *)
(** ** config_flow.py *)

(** What a step of the flow answers. *)
Inductive flow_result : Type :=
| Abort (reason : pystr)
| CreateEntry (title : pystr) (data : dict pyval)
| ShowForm (step_id : pystr).

(** A config entry: its title and its data. *)
Definition config_entry := (pystr * dict pyval)%type.

(** [DisplayToolsConfigFlow.async_step_user(user_input)], with what
    [self._async_current_entries()] returns. *)
Definition async_step_user (current_entries : list config_entry)
    (user_input : option (dict pyval)) : flow_result :=
  match current_entries with
  | _ :: _ => Abort (u "single_instance_allowed")
  | [] =>
      match user_input with
      | Some _ => CreateEntry (u "Display Tools") []
      | None => ShowForm (u "user")
      end
  end.

(** The entries of the domain after a step: the flow manager adds the
    entry a step creates. *)
Definition flow_step (entries : list config_entry)
    (user_input : option (dict pyval)) : list config_entry :=
  match async_step_user entries user_input with
  | CreateEntry title data => entries ++ [(title, data)]
  | _ => entries
  end.

(* ================================================================== *)
(** * Properties *)

(** ** Strings and dictionaries *)

Lemma eqb_eq (a b : pystr) : PyStr.eqb a b = true <-> a = b.
Proof.
  revert b; induction a as [|x a IH]; intros [|y b]; simpl;
    try (split; [discriminate | discriminate]); try tauto.
  rewrite andb_true_iff, N.eqb_eq, IH.
  split; [intros [-> ->]; reflexivity | intros H; inversion H; auto].
Qed.

Lemma eqb_refl (a : pystr) : PyStr.eqb a a = true.
Proof. apply eqb_eq; reflexivity. Qed.

Lemma eqb_neq (a b : pystr) : PyStr.eqb a b = false <-> a <> b.
Proof.
  split.
  - intros H E. apply eqb_eq in E. congruence.
  - intros H. destruct (PyStr.eqb a b) eqn:E; [|reflexivity].
    apply eqb_eq in E. contradiction.
Qed.

Lemma eqb_sym (a b : pystr) : PyStr.eqb a b = PyStr.eqb b a.
Proof.
  destruct (PyStr.eqb a b) eqn:E; symmetry.
  - apply eqb_eq in E; subst; apply eqb_refl.
  - apply eqb_neq. apply eqb_neq in E. congruence.
Qed.

Ltac str_cases a b :=
  let E := fresh "E" in
  destruct (PyStr.eqb a b) eqn:E;
  [apply eqb_eq in E; try subst | try (apply eqb_neq in E)].

Lemma get_set {V} (d : dict V) (k k' : pystr) (v : V) :
  get (set d k v) k' = if PyStr.eqb k k' then Some v else get d k'.
Proof.
  induction d as [|[k0 v0] r IH]; simpl.
  - reflexivity.
  - str_cases k0 k; simpl.
    + destruct (PyStr.eqb k k'); reflexivity.
    + rewrite IH. destruct (PyStr.eqb k0 k') eqn:E0; [|reflexivity].
      destruct (PyStr.eqb k k') eqn:E1; [|reflexivity].
      apply eqb_eq in E0, E1. congruence.
Qed.

Lemma get_set_same {V} (d : dict V) (k : pystr) (v : V) :
  get (set d k v) k = Some v.
Proof. rewrite get_set, eqb_refl; reflexivity. Qed.

Lemma get_set_other {V} (d : dict V) (k k' : pystr) (v : V) :
  k <> k' -> get (set d k v) k' = get d k'.
Proof.
  intros H. rewrite get_set.
  apply eqb_neq in H. rewrite H. reflexivity.
Qed.

Lemma get_In {V} (d : dict V) (k : pystr) (v : V) :
  get d k = Some v -> In (k, v) d.
Proof.
  induction d as [|[k0 v0] r IH]; simpl; [discriminate|].
  str_cases k0 k.
  - intros H; inversion H; auto.
  - auto.
Qed.

Lemma get_None_not_In {V} (d : dict V) (k : pystr) :
  get d k = None <-> ~ In k (keys d).
Proof.
  induction d as [|[k0 v0] r IH]; simpl; [tauto|].
  str_cases k0 k.
  - split; [discriminate | intros H; exfalso; auto].
  - rewrite IH. split; [intros H [H1|H1]; auto | tauto].
Qed.

(** [d.update(e)] leaves alone what [e] does not name. *)
Lemma get_update_other {V} (e d : dict V) (k : pystr) :
  ~ In k (keys e) -> get (update d e) k = get d k.
Proof.
  unfold update. revert d.
  induction e as [|[k0 v0] e IH]; simpl; intros d H; [reflexivity|].
  rewrite IH by tauto.
  apply get_set_other. intros ->. tauto.
Qed.

(** [d.update(e)] at a key of [e] holds what [e] holds. *)
Lemma get_update_in {V} (e d : dict V) (k : pystr) (v : V) :
  get (rev e) k = Some v -> get (update d e) k = Some v.
Proof.
  unfold update. revert d.
  induction e as [|[k0 v0] e IH] using rev_ind; simpl; intros d H;
    [discriminate|].
  rewrite fold_left_app; simpl.
  rewrite rev_app_distr in H; simpl in H.
  rewrite get_set.
  destruct (PyStr.eqb k0 k); [assumption | auto].
Qed.

(** ** Translation filter *)

Lemma filter_fold_get (translations : dict pystr) (ks : list pystr) :
  forall (acc : dict pystr) (k : pystr),
    get (fold_left (filter_step translations) ks acc) k =
    if existsb (PyStr.eqb k) ks
    then Some (match get translations k with Some v => v | None => k end)
    else get acc k.
Proof.
  induction ks as [|k0 ks IH]; intros acc k; simpl; [reflexivity|].
  rewrite IH.
  destruct (existsb (PyStr.eqb k) ks); [rewrite orb_true_r; reflexivity|].
  rewrite orb_false_r.
  unfold filter_step.
  str_cases k k0.
  - destruct (get translations k0); apply get_set_same.
  - destruct (get translations k0); apply get_set_other; congruence.
Qed.

Lemma existsb_eqb_In (k : pystr) (ks : list pystr) :
  existsb (PyStr.eqb k) ks = true <-> In k ks.
Proof.
  rewrite existsb_exists. split.
  - intros [x [H1 H2]]. apply eqb_eq in H2. subst. assumption.
  - intros H. exists k. split; [assumption | apply eqb_refl].
Qed.

(** C6.  [_filter_translations_by_keys]: with no keys ([None] or the
    empty list) the source mapping comes back as it is; otherwise every
    requested key is in the result, with its value from the source
    mapping when it has one and with the key's own text when it has
    none, and nothing else is in the result. *)
Theorem filter_translations_by_keys_spec
    (translations : dict pystr) (keys : list pystr) :
  _filter_translations_by_keys translations None = translations
  /\ _filter_translations_by_keys translations (Some []) = translations
  /\ (keys <> [] ->
      let filtered := _filter_translations_by_keys translations (Some keys) in
      (forall k v, In k keys -> get translations k = Some v ->
                   get filtered k = Some v)
      /\ (forall k, In k keys -> get translations k = None ->
                    get filtered k = Some k)
      /\ (forall k, In k keys -> contains filtered k = true)
      /\ (forall k, ~ In k keys -> get filtered k = None)).
Proof.
  split; [reflexivity|]. split; [reflexivity|].
  intros Hne filtered.
  assert (Hget : forall k,
             get filtered k =
             if existsb (PyStr.eqb k) keys
             then Some (match get translations k with
                        | Some v => v | None => k end)
             else None).
  { intros k. subst filtered. destruct keys as [|k0 ks]; [congruence|].
    apply (filter_fold_get translations (k0 :: ks) []). }
  repeat split.
  - intros k v Hin Hk. rewrite Hget.
    apply existsb_eqb_In in Hin. rewrite Hin, Hk. reflexivity.
  - intros k Hin Hk. rewrite Hget.
    apply existsb_eqb_In in Hin. rewrite Hin, Hk. reflexivity.
  - intros k Hin. unfold contains. rewrite Hget.
    apply existsb_eqb_In in Hin. rewrite Hin. reflexivity.
  - intros k Hnin. rewrite Hget.
    destruct (existsb (PyStr.eqb k) keys) eqn:E; [|reflexivity].
    apply existsb_eqb_In in E. contradiction.
Qed.

Lemma filter_translations_by_keys_spec_witness :
  get (_filter_translations_by_keys Sample.translations
         (Some [u "title"; u "missing"])) (u "missing")
  = Some (u "missing").
Proof.
  apply (proj1 (proj2 (proj2 (proj2
           (filter_translations_by_keys_spec Sample.translations
              [u "title"; u "missing"])) ltac:(discriminate)))).
  - right. left. reflexivity.
  - reflexivity.
Defined.

(** The example of the specification, and a key that is present. *)
Example filter_translations_by_keys_example :
  _filter_translations_by_keys Sample.translations
    (Some [u "title"; u "missing"])
  = [ (u "title", u "Home"); (u "missing", u "missing") ].
Proof. reflexivity. Qed.

(** ** Grouping *)

Lemma slot_of_Some (key c f : pystr) :
  slot_of key = Some (c, f) <-> grouped_under key c f.
Proof.
  unfold slot_of, grouped_under; cbv zeta.
  destruct (2 <=? List.length (split dot key))%nat eqn:E1; simpl.
  - apply Nat.leb_le in E1.
    destruct (PyStr.eqb (nth 0 (split dot key) []) component_prefix) eqn:E2.
    + apply eqb_eq in E2. split.
      * intros H; inversion H; subst; auto.
      * intros (_ & _ & <- & <-); reflexivity.
    + apply eqb_neq in E2. split; [discriminate | tauto].
  - apply Nat.leb_gt in E1. split; [discriminate | lia].
Qed.

Lemma slot_of_None (key : pystr) :
  slot_of key = None <-> ~ exists c f, grouped_under key c f.
Proof.
  split.
  - intros H (c & f & Hg). apply slot_of_Some in Hg. congruence.
  - intros H. destruct (slot_of key) as [[c f]|] eqn:E; [|reflexivity].
    exfalso. apply H. exists c, f. apply slot_of_Some. assumption.
Qed.

Lemma set_set {V} (d : dict V) (k : pystr) (v v' : V) :
  set (set d k v) k v' = set d k v'.
Proof.
  induction d as [|[k0 v0] r IH]; simpl.
  - rewrite eqb_refl. reflexivity.
  - destruct (PyStr.eqb k0 k) eqn:E; simpl; rewrite E.
    + reflexivity.
    + rewrite IH. reflexivity.
Qed.

(** One turn of the grouping loop writes [value] to the slot of [key]
    and nothing else. *)
Lemma group_step_slot (g : dict (dict pystr)) (key value : pystr) :
  group_step g (key, value) =
  match slot_of key with
  | Some (c, f) =>
      set g c (set (match get g c with Some inner => inner | None => [] end)
                   f value)
  | None => g
  end.
Proof.
  unfold group_step, slot_of; cbv zeta.
  destruct ((2 <=? List.length (split dot key))%nat
            && PyStr.eqb (nth 0 (split dot key) []) component_prefix);
    [|reflexivity].
  set (c := nth 1 (split dot key) []).
  set (f := last (split dot key) []).
  unfold contains.
  destruct (get g c) as [inner|] eqn:E.
  - rewrite E. reflexivity.
  - rewrite get_set_same. apply set_set.
Qed.

Lemma get2_group_step (g : dict (dict pystr)) (key value c f : pystr) :
  get2 (group_step g (key, value)) c f =
  match slot_of key with
  | Some (c', f') =>
      if PyStr.eqb c' c && PyStr.eqb f' f then Some value else get2 g c f
  | None => get2 g c f
  end.
Proof.
  rewrite group_step_slot.
  destruct (slot_of key) as [[c' f']|]; [|reflexivity].
  unfold get2. rewrite get_set.
  destruct (PyStr.eqb c' c) eqn:Ec; simpl.
  - apply eqb_eq in Ec. subst c'. rewrite get_set.
    destruct (PyStr.eqb f' f); [reflexivity|].
    destruct (get g c); reflexivity.
  - reflexivity.
Qed.

Lemma contains_group_step (g : dict (dict pystr)) (key value c : pystr) :
  contains (group_step g (key, value)) c =
  match slot_of key with
  | Some (c', _) => PyStr.eqb c' c || contains g c
  | None => contains g c
  end.
Proof.
  rewrite group_step_slot.
  destruct (slot_of key) as [[c' f']|]; [|reflexivity].
  unfold contains. rewrite get_set.
  destruct (PyStr.eqb c' c); reflexivity.
Qed.

Lemma group_translations_snoc (l : dict pystr) (item : pystr * pystr) :
  group_translations (l ++ [item]) = group_step (group_translations l) item.
Proof. unfold group_translations. rewrite fold_left_app. reflexivity. Qed.

Lemma slot_dec (key c f : pystr) :
  {grouped_under key c f} + {~ grouped_under key c f}.
Proof.
  destruct (slot_of key) as [[c' f']|] eqn:E.
  - destruct (PyStr.eqb c' c && PyStr.eqb f' f) eqn:E1.
    + left. apply andb_true_iff in E1. destruct E1 as [H1 H2].
      apply eqb_eq in H1, H2. subst. apply slot_of_Some. assumption.
    + right. intros H. apply slot_of_Some in H. rewrite H in E.
      inversion E; subst. rewrite !eqb_refl in E1. discriminate.
  - right. intros H. apply slot_of_Some in H. congruence.
Qed.

(** The value in a slot is the one of the last entry that writes to
    it. *)
Lemma get2_group_translations (translations : dict pystr) (c f v : pystr) :
  get2 (group_translations translations) c f = Some v <->
  exists before key after,
    translations = before ++ (key, v) :: after
    /\ grouped_under key c f
    /\ forall k' v', In (k', v') after -> ~ grouped_under k' c f.
Proof.
  induction translations as [|[key0 v0] l IH] using rev_ind.
  - split; [discriminate|].
    intros (before & key & after & H & _). destruct before; discriminate.
  - rewrite group_translations_snoc, get2_group_step.
    destruct (slot_dec key0 c f) as [Hm|Hm].
    + pose proof Hm as Hs. apply slot_of_Some in Hs. rewrite Hs.
      rewrite !eqb_refl. simpl. split.
      * intros H. inversion H; subst.
        exists l, key0, [].
        split; [reflexivity | split; [assumption | intros k' v' []]].
      * intros (before & key & after & H & Hk & Hafter).
        destruct after as [|a after _] using rev_ind.
        { apply app_inj_tail in H. destruct H as [_ H]. congruence. }
        { rewrite app_comm_cons, app_assoc in H.
          apply app_inj_tail in H. destruct H as [_ H]. subst a.
          exfalso. apply (Hafter key0 v0); [|assumption].
          apply in_or_app. right. left. reflexivity. }
    + assert (Hstep : match slot_of key0 with
                      | Some (c', f') =>
                          if PyStr.eqb c' c && PyStr.eqb f' f
                          then Some v0 else get2 (group_translations l) c f
                      | None => get2 (group_translations l) c f
                      end = get2 (group_translations l) c f).
      { destruct (slot_of key0) as [[c' f']|] eqn:E; [|reflexivity].
        destruct (PyStr.eqb c' c && PyStr.eqb f' f) eqn:E1; [|reflexivity].
        exfalso. apply Hm. apply andb_true_iff in E1. destruct E1 as [H1 H2].
        apply eqb_eq in H1, H2. subst. apply slot_of_Some. assumption. }
      rewrite Hstep, IH. split.
      * intros (before & key & after & H & Hk & Hafter).
        exists before, key, (after ++ [(key0, v0)]).
        split; [|split].
        { subst l. rewrite <- app_assoc. reflexivity. }
        { assumption. }
        { intros k' v' Hin. apply in_app_or in Hin. destruct Hin as [Hin|Hin].
          - eapply Hafter; eassumption.
          - destruct Hin as [Hin|[]]. inversion Hin; subst. assumption. }
      * intros (before & key & after & H & Hk & Hafter).
        destruct after as [|a after _] using rev_ind.
        { apply app_inj_tail in H. destruct H as [_ H].
          inversion H; subst. contradiction. }
        { rewrite app_comm_cons, app_assoc in H.
          apply app_inj_tail in H. destruct H as [H Ha]. subst a.
          exists before, key, after.
          split; [assumption | split; [assumption|]].
          intros k' v' Hin. apply (Hafter k' v').
          apply in_or_app. left. assumption. }
Qed.

Lemma contains_group_translations (translations : dict pystr) (c : pystr) :
  contains (group_translations translations) c = true <->
  exists key v f, In (key, v) translations /\ grouped_under key c f.
Proof.
  induction translations as [|[key0 v0] l IH] using rev_ind.
  - split; [discriminate | intros (key & v & f & [] & _)].
  - rewrite group_translations_snoc, contains_group_step.
    destruct (slot_of key0) as [[c' f']|] eqn:E.
    + rewrite orb_true_iff, IH, eqb_eq. split.
      * intros [H|(key & v & f & Hin & Hg)].
        { subst c'. exists key0, v0, f'. split.
          - apply in_or_app. right. left. reflexivity.
          - apply slot_of_Some. assumption. }
        { exists key, v, f. split; [|assumption].
          apply in_or_app. left. assumption. }
      * intros (key & v & f & Hin & Hg).
        apply in_app_or in Hin. destruct Hin as [Hin|[Hin|[]]].
        { right. exists key, v, f. auto. }
        { inversion Hin; subst. apply slot_of_Some in Hg.
          rewrite Hg in E. inversion E. left. reflexivity. }
    + rewrite IH. split.
      * intros (key & v & f & Hin & Hg). exists key, v, f.
        split; [|assumption]. apply in_or_app. left. assumption.
      * intros (key & v & f & Hin & Hg).
        apply in_app_or in Hin. destruct Hin as [Hin|[Hin|[]]].
        { exists key, v, f. auto. }
        { inversion Hin; subst. apply slot_of_Some in Hg. congruence. }
Qed.

Lemma group_translations_drop (before after : dict pystr)
    (key v : pystr) :
  slot_of key = None ->
  group_translations (before ++ (key, v) :: after) =
  group_translations (before ++ after).
Proof.
  intros H. unfold group_translations.
  rewrite !fold_left_app. cbn [fold_left].
  rewrite group_step_slot, H. reflexivity.
Qed.

(** C1.  The grouping loop of [handle_get_translations_esphome]: a slot
    [component][final_key] of the grouped result holds [v] exactly when
    [v] belongs to the last entry, in mapping order, whose key split on
    ['.'] has at least two segments, first segment [component], second
    segment the component and last segment the final key; a component
    is in the result exactly when some entry has such a key; an entry
    whose key has fewer than two segments or another first segment
    changes nothing in the result. *)
Theorem group_translations_spec (translations : dict pystr) :
  (forall key,
      (exists c f, grouped_under key c f) <->
      (2 <= List.length (split dot key))%nat
      /\ nth 0 (split dot key) [] = component_prefix)
  /\ (forall c f v,
         get2 (group_translations translations) c f = Some v <->
         exists before key after,
           translations = before ++ (key, v) :: after
           /\ grouped_under key c f
           /\ forall k' v', In (k', v') after -> ~ grouped_under k' c f)
  /\ (forall c,
         contains (group_translations translations) c = true <->
         exists key v f, In (key, v) translations /\ grouped_under key c f)
  /\ (forall before key v after,
         translations = before ++ (key, v) :: after ->
         ~ ((2 <= List.length (split dot key))%nat
            /\ nth 0 (split dot key) [] = component_prefix) ->
         group_translations translations =
         group_translations (before ++ after)).
Proof.
  split; [|split; [|split]].
  - intros key. split.
    + intros (c & f & H1 & H2 & _). auto.
    + intros [H1 H2]. eexists. eexists. repeat split; assumption.
  - intros c f v. apply get2_group_translations.
  - intros c. apply contains_group_translations.
  - intros before key v after -> Hno.
    apply group_translations_drop.
    apply slot_of_None. intros (c & f & H1 & H2 & _). tauto.
Qed.

(** The example of the specification. *)
Example group_translations_vacuum :
  group_translations
    [ (u "component.vacuum.entity_component._.state.cleaning",
       u "Cleaning") ]
  = [ (u "vacuum", [ (u "cleaning", u "Cleaning") ]) ].
Proof. reflexivity. Qed.

(** Keys that differ in a middle segment share a slot; the later one
    wins.  Keys of another shape are left out. *)
Example group_translations_collapse :
  group_translations
    [ (u "component.cover.state.open", u "first");
      (u "state.open", u "dropped");
      (u "open", u "dropped");
      (u "component.cover.entity_component.open", u "second") ]
  = [ (u "cover", [ (u "open", u "second") ]) ].
Proof. reflexivity. Qed.

Lemma group_translations_spec_witness :
  get2 (group_translations
          [ (u "component.cover.state.open", u "first");
            (u "open", u "dropped");
            (u "component.cover.entity_component.open", u "second") ])
       (u "cover") (u "open") = Some (u "second").
Proof.
  apply (proj1 (proj2 (group_translations_spec _))).
  exists [ (u "component.cover.state.open", u "first");
           (u "open", u "dropped") ],
         (u "component.cover.entity_component.open"), [].
  split; [reflexivity|]. split.
  - unfold grouped_under. simpl. repeat split; lia.
  - intros k' v' [].
Defined.

(** ** Trimming and splitting *)

Lemma lstrip_idem (s : pystr) : lstrip (lstrip s) = lstrip s.
Proof.
  induction s as [|c r IH]; simpl; [reflexivity|].
  destruct (is_space c) eqn:E; [assumption|].
  simpl. rewrite E. reflexivity.
Qed.

Lemma lstrip_suffix (s : pystr) : exists w, s = w ++ lstrip s.
Proof.
  induction s as [|c r [w IH]]; simpl.
  - exists []. reflexivity.
  - destruct (is_space c).
    + exists (c :: w). simpl. f_equal. assumption.
    + exists []. reflexivity.
Qed.

Lemma lstrip_head (s : pystr) (c : N) (r : pystr) :
  lstrip s = c :: r -> is_space c = false.
Proof.
  induction s as [|x s IH]; simpl; [discriminate|].
  destruct (is_space x) eqn:E; [assumption|].
  intros H. inversion H; subst. assumption.
Qed.

Lemma rstrip_idem (s : pystr) : rstrip (rstrip s) = rstrip s.
Proof.
  unfold rstrip. rewrite rev_involutive, lstrip_idem. reflexivity.
Qed.

Lemma rstrip_prefix (s : pystr) : exists w, s = rstrip s ++ w.
Proof.
  unfold rstrip. destruct (lstrip_suffix (rev s)) as [w H].
  exists (rev w).
  rewrite <- rev_app_distr, <- H, rev_involutive. reflexivity.
Qed.

Lemma lstrip_rstrip (t : pystr) :
  lstrip t = t -> lstrip (rstrip t) = rstrip t.
Proof.
  intros Ht. destruct (rstrip_prefix t) as [w Hw].
  destruct (rstrip t) as [|c r] eqn:E; [reflexivity|].
  rewrite Hw in Ht. simpl in Ht.
  simpl. destruct (is_space c) eqn:Ec; [|reflexivity].
  exfalso.
  destruct (lstrip_suffix (r ++ w)) as [w' Hs].
  rewrite Ht in Hs.
  apply (f_equal (@List.length N)) in Hs.
  rewrite !length_app in Hs. simpl in Hs. rewrite !length_app in Hs. lia.
Qed.

(** Trimming twice is trimming once. *)
Lemma strip_idem (s : pystr) : strip (strip s) = strip s.
Proof.
  unfold strip.
  rewrite lstrip_rstrip by apply lstrip_idem.
  apply rstrip_idem.
Qed.

Lemma split_nonempty (sep : N) (s : pystr) : split sep s <> [].
Proof.
  induction s as [|c r IH]; simpl; [discriminate|].
  destruct (N.eqb c sep); [discriminate|].
  destruct (split sep r); [contradiction | discriminate].
Qed.

(** The pieces of a text are the pieces of what is before a separator
    followed by the pieces of what is after it. *)
Lemma split_app (sep : N) (a b : pystr) :
  split sep (a ++ sep :: b) = split sep a ++ split sep b.
Proof.
  induction a as [|c a IH]; simpl.
  - rewrite N.eqb_refl. reflexivity.
  - destruct (N.eqb c sep); [rewrite IH; reflexivity|].
    rewrite IH.
    pose proof (split_nonempty sep a) as Hne.
    destruct (split sep a); [contradiction | reflexivity].
Qed.

Lemma comma_split_app (a b : pystr) :
  comma_split (a ++ comma :: b) = comma_split a ++ comma_split b.
Proof.
  unfold comma_split.
  rewrite split_app, filter_app, map_app. reflexivity.
Qed.

Lemma comma_split_In (s k : pystr) :
  In k (comma_split s) ->
  k <> [] /\ strip k = k /\ exists p, In p (split comma s) /\ k = strip p.
Proof.
  unfold comma_split. intros H.
  apply in_map_iff in H. destruct H as [p [Hk Hp]].
  apply filter_In in Hp. destruct Hp as [Hp Hne].
  subst k. split; [|split].
  - destruct (strip p); [discriminate | discriminate].
  - apply strip_idem.
  - exists p. split; [assumption | reflexivity].
Qed.

(** ** Key normaliser *)

Section KeyNormalizerFacts.

Context {B : Builtins}.

(** What the normaliser block leaves in [keys], and in the log. *)
Lemma normalize_keys_run (keys_raw : pyval) (h : hass) :
  normalize_keys keys_raw h =
  match keys_raw with
  | PNone => (Ret PNone, h)
  | _ => match normalize_body keys_raw with
         | Ret keys => (Ret keys, h)
         | Raise e => (Ret PNone, logged (ErrProcessingKeys e) h)
         end
  end.
Proof.
  destruct keys_raw; try reflexivity;
    unfold normalize_keys, mtry, lift;
    match goal with
    | |- context [normalize_body ?x] => destruct (normalize_body x)
    end; reflexivity.
Qed.

Lemma loads_or_split_run (s : pystr) :
  loads_or_split s =
  match json_loads s with
  | Ret v => Ret v
  | Raise JSONDecodeError => Ret (PList (map PStr (comma_split s)))
  | Raise e => Raise e
  end.
Proof.
  unfold loads_or_split, try_except.
  destruct (json_loads s) as [v|[]]; reflexivity.
Qed.

End KeyNormalizerFacts.

(** C5.  The key normaliser never raises: for every input and every
    behaviour of [json.loads] and [str] it ends with a value for
    [keys]; [None] gives [None] at once; when the body of the [try]
    raises, the exception is caught, logged, and [keys] is [None], which
    the caller's [if keys:] treats as no filter. *)
Theorem normalize_keys_never_raises
    (B : Builtins) (keys_raw : pyval) (h : hass) :
  (exists keys, fst (normalize_keys keys_raw h) = Ret keys)
  /\ normalize_keys PNone h = (Ret PNone, h)
  /\ (forall e,
         keys_raw <> PNone ->
         normalize_body keys_raw = Raise e ->
         normalize_keys keys_raw h
         = (Ret PNone, logged (ErrProcessingKeys e) h))
  /\ truthy PNone = false.
Proof.
  rewrite normalize_keys_run.
  split; [|split; [reflexivity | split; [|reflexivity]]].
  - destruct keys_raw; try (eexists; reflexivity);
      match goal with
      | |- context [normalize_body ?x] => destruct (normalize_body x)
      end; eexists; reflexivity.
  - intros e Hne He. rewrite He.
    destruct keys_raw; try reflexivity. congruence.
Qed.

Lemma normalize_keys_never_raises_witness :
  normalize_keys (B := Reference.cpython) (PStr deep_brackets) hass0
  = (Ret PNone, logged (ErrProcessingKeys RecursionError) hass0).
Proof.
  apply (proj1 (proj2 (proj2
           (normalize_keys_never_raises Reference.cpython
              (PStr deep_brackets) hass0)))).
  - discriminate.
  - vm_compute. reflexivity.
Defined.

(** C2.  The single-element case is for lists of length one only: a
    list of any other length is used as it is, nothing in it is split;
    a one-element list whose element is a string that [json.loads]
    rejects is split on commas, each piece trimmed and the empty ones
    dropped. *)
Theorem normalize_keys_list (B : Builtins) (h : hass) :
  (forall l, List.length l <> 1%nat ->
             normalize_keys (PList l) h = (Ret (PList l), h))
  /\ (forall s, json_loads s = Raise JSONDecodeError ->
                normalize_keys (PList [PStr s]) h
                = (Ret (PList (map PStr (comma_split s))), h))
  /\ (forall s k, In k (comma_split s) ->
                  k <> [] /\ strip k = k
                  /\ exists p, In p (split comma s) /\ k = strip p)
  /\ normalize_keys (B := Reference.cpython)
       (PList [PStr (u "a,b"); PStr (u "c")]) h
     = (Ret (PList [PStr (u "a,b"); PStr (u "c")]), h)
  /\ normalize_keys (B := Reference.cpython) (PList [PStr (u "a,b,c")]) h
     = (Ret (PList [PStr (u "a"); PStr (u "b"); PStr (u "c")]), h).
Proof.
  split; [|split; [|split; [|split]]].
  - intros l Hl. rewrite normalize_keys_run.
    destruct l as [|x [|y l]]; simpl in *; try reflexivity. congruence.
  - intros s Hs. rewrite normalize_keys_run. simpl.
    rewrite loads_or_split_run, Hs. reflexivity.
  - intros s k. apply comma_split_In.
  - rewrite normalize_keys_run. reflexivity.
  - rewrite normalize_keys_run. vm_compute. reflexivity.
Qed.

Lemma normalize_keys_list_witness :
  normalize_keys (B := Reference.cpython) (PList [PStr (u " a , ,b,")]) hass0
  = (Ret (PList [PStr (u "a"); PStr (u "b")]), hass0).
Proof.
  apply (proj1 (proj2 (normalize_keys_list Reference.cpython hass0))
           (u " a , ,b,")).
  vm_compute. reflexivity.
Defined.






(** ** Status record *)

Section StatusRecordFacts.

Context {B : Builtins} {P : Platform}.

Lemma esphome_try_run (language category : pystr) (keys : pyval)
    (h : hass) :
  esphome_try language category keys h =
  let h1 := after_fetch language category h in
  match flat_translations language category keys with
  | Raise e => (Raise e, h1)
  | Ret translations =>
      match requested_count keys with
      | Raise e => (Raise e, h1)
      | Ret requested =>
          (Ret tt, esphome_done language category translations requested h1)
      end
  end.
Proof.
  unfold esphome_try, flat_translations, requested_count, fetched,
    after_fetch, _fetch_translations_for_category, mbind, mtry, lift, ret.
  destruct (async_get_translations language category) as [t|e]; simpl;
    destruct (truthy keys); simpl;
    try (destruct (requested_keys keys) as [ks|e']; simpl; [|reflexivity]);
    try (destruct (py_len keys) as [n|e'']; simpl; [|reflexivity]);
    reflexivity.
Qed.

End StatusRecordFacts.

Lemma get_loaded_or_empty (loaded : option (dict pyval)) (k : pystr) :
  get (loaded_or_empty loaded) k =
  get (match loaded with Some d => d | None => [] end) k.
Proof. destruct loaded as [[|x d]|]; reflexivity. Qed.

(** C10.  A call of [get_translations_esphome] whose [try] block runs
    to its end saves the record it loaded, updated: the five fields
    [language], [category], [grouped_translations],
    [translations_count] and [requested_keys_count] hold the new
    values, and every other field of the record that was stored before
    is in the saved record with the value it had. *)
Theorem esphome_read_modify_write (B : Builtins) (P : Platform)
    (language category : pystr) (keys_raw keys : pyval) (h h1 h2 : hass) :
  normalize_keys keys_raw h = (Ret keys, h1) ->
  esphome_try language category keys h1 = (Ret tt, h2) ->
  handle_get_translations_esphome language category keys_raw h
  = (Ret tt, h2)
  /\ exists translations requested saved,
      stored h2 = Some saved
      /\ saved = update (loaded_or_empty (stored h))
                   (status_fields language category
                      (group_translations translations) translations
                      requested)
      /\ (forall k, ~ In k status_field_names ->
                    get saved k =
                    get (match stored h with Some d => d | None => [] end) k)
      /\ get saved (u "language") = Some (PStr language)
      /\ get saved (u "category") = Some (PStr category)
      /\ get saved (u "grouped_translations")
         = Some (pydict_of_grouped (group_translations translations))
      /\ get saved (u "translations_count")
         = Some (PInt (len translations))
      /\ get saved (u "requested_keys_count") = Some (PInt requested).
Proof.
  intros Hn Ht. split.
  - unfold handle_get_translations_esphome, mbind, mtry.
    rewrite Hn, Ht. reflexivity.
  - assert (Hs : stored h1 = stored h).
    { rewrite normalize_keys_run in Hn.
      destruct keys_raw; try (inversion Hn; reflexivity);
        match type of Hn with
        | context [normalize_body ?x] => destruct (normalize_body x)
        end; inversion Hn; reflexivity. }
    rewrite esphome_try_run in Ht. cbv zeta in Ht.
    destruct (flat_translations language category keys)
      as [translations|e]; [|discriminate].
    destruct (requested_count keys) as [requested|e]; [|discriminate].
    inversion Ht as [Hh2]. clear Ht.
    exists translations, requested.
    eexists. split; [reflexivity|].
    assert (Hl : stored (after_fetch language category h1) = stored h).
    { unfold after_fetch.
      destruct (async_get_translations language category);
        simpl; assumption. }
    rewrite Hl.
    split; [reflexivity|]. split.
    + intros k Hk. rewrite get_update_other.
      * apply get_loaded_or_empty.
      * exact Hk.
    + repeat split; apply get_update_in; reflexivity.
Qed.

Lemma esphome_read_modify_write_witness :
  exists h2 saved,
    handle_get_translations_esphome (B := Reference.cpython)
      (P := Sample.platform) (u "en") (u "state")
      (PList [PStr (u "component.cover.state.open,missing")]) Sample.hass1
    = (Ret tt, h2)
    /\ stored h2 = Some saved
    /\ get saved (u "theme") = Some (PStr (u "dark"))
    /\ get saved (u "translations_count") = Some (PInt 2)
    /\ get saved (u "requested_keys_count") = Some (PInt 2).
Proof.
  eexists. eexists.
  destruct (esphome_read_modify_write Reference.cpython Sample.platform
              (u "en") (u "state")
              (PList [PStr (u "component.cover.state.open,missing")])
              (PList [PStr (u "component.cover.state.open");
                      PStr (u "missing")])
              Sample.hass1 Sample.hass1
              (snd (esphome_try (B := Reference.cpython)
                      (P := Sample.platform) (u "en") (u "state")
                      (PList [PStr (u "component.cover.state.open");
                              PStr (u "missing")]) Sample.hass1)))
    as (H1 & translations & requested & saved & H2 & H3 & H4 & _).
  - vm_compute. reflexivity.
  - vm_compute. reflexivity.
  - split; [exact H1|].
    split; [vm_compute; reflexivity|].
    vm_compute. repeat split.
Defined.

(** ** Media cover *)

Section CoverFacts.

Context {P : Platform}.

Lemma process_image_run (image_data : list N) (target_size : Z * Z)
    (h : hass) :
  process_image image_data target_size h
  = process_outcome image_data target_size h.
Proof.
  unfold process_image, process_outcome, mbind, lift.
  destruct (load_thumbnail image_data target_size) as [img|e];
    [|reflexivity].
  destruct (os_makedirs output_dir) as [[]|e]; [|reflexivity].
  change (os_path_join output_dir (u "cover.jpeg")) with cover_path.
  destruct (save_check cover_path (center_on_canvas img target_size))
    as [[]|e]; reflexivity.
Qed.

Lemma download_and_process_cover_run (entity_id size : pystr) (h : hass) :
  _download_and_process_cover entity_id size h
  = (Ret (fst (cover_outcome entity_id size h)),
     snd (cover_outcome entity_id size h)).
Proof.
  unfold _download_and_process_cover, cover_try, cover_outcome,
    mtry, mbind, states_get, lift, ret, raise, logger, logged.
  cbn [fst snd].
  destruct (get (states h) entity_id) as [[st attributes]|];
    [|reflexivity].
  fold (entity_picture_of attributes).
  destruct (truthy (entity_picture_of attributes)) eqn:Et; cbn [negb];
    [|reflexivity].
  assert (Hu : image_url_of (entity_picture_of attributes) h
               = (image_url (entity_picture_of attributes) (server_port h),
                  h)).
  { unfold image_url_of, image_url, mbind, http_server_port, ret, raise.
    destruct (entity_picture_of attributes); try reflexivity.
    destruct (startswith s slash); reflexivity. }
  rewrite Hu.
  destruct (image_url (entity_picture_of attributes) (server_port h))
    as [url|e]; [|reflexivity].
  destruct (get COVER_SIZES size) as [target_size|]; [|reflexivity].
  destruct (session_get url) as [resp|e]; [|reflexivity].
  destruct (Z.eqb (status resp) 200); cbn [negb]; [|reflexivity].
  destruct (read resp) as [image_data|e]; [|reflexivity].
  rewrite process_image_run.
  destruct (process_outcome image_data target_size h) as [[b|e] h'];
    reflexivity.
Qed.

End CoverFacts.

(** When the outcome is [True], every step has succeeded and the
    cover has been written. *)
Lemma cover_outcome_true (P : Platform) (entity_id size : pystr)
    (h : hass) :
  fst (cover_outcome entity_id size h) = true ->
  exists st attributes url target_size resp image_data img,
    get (states h) entity_id = Some (st, attributes)
    /\ truthy (entity_picture_of attributes) = true
    /\ image_url (entity_picture_of attributes) (server_port h) = Ret url
    /\ get COVER_SIZES size = Some target_size
    /\ session_get url = Ret resp
    /\ status resp = 200%Z
    /\ read resp = Ret image_data
    /\ load_thumbnail image_data target_size = Ret img
    /\ os_makedirs output_dir = Ret tt
    /\ save_check cover_path (center_on_canvas img target_size) = Ret tt
    /\ snd (cover_outcome entity_id size h)
       = cover_written img target_size h.
Proof.
  unfold cover_outcome.
  destruct (get (states h) entity_id) as [[st attributes]|];
    [|discriminate].
  destruct (truthy (entity_picture_of attributes)) eqn:Et;
    cbn [negb]; [|discriminate].
  destruct (image_url (entity_picture_of attributes) (server_port h))
    as [url|e] eqn:Eu; [|discriminate].
  destruct (get COVER_SIZES size) as [target_size|] eqn:Es;
    [|discriminate].
  destruct (session_get url) as [resp|e] eqn:Er; [|discriminate].
  destruct (Z.eqb (status resp) 200) eqn:Est; cbn [negb];
    [|discriminate].
  destruct (read resp) as [image_data|e] eqn:Ed; [|discriminate].
  unfold process_outcome.
  destruct (load_thumbnail image_data target_size) as [img|e] eqn:El;
    [|discriminate].
  destruct (os_makedirs output_dir) as [[]|e] eqn:Em; [|discriminate].
  destruct (save_check cover_path (center_on_canvas img target_size))
    as [[]|e] eqn:Ec; [|discriminate].
  intros _. apply Z.eqb_eq in Est.
  exists st, attributes, url, target_size, resp, image_data, img.
  repeat split; auto.
Qed.

(** C7.  [_download_and_process_cover] returns a boolean and never
    raises; an entity that is not found, a missing or empty
    [entity_picture], a status other than 200 and an error while the
    image is processed each give [False] and an error in the log; it
    returns [True] only when every step up to the save has succeeded;
    [handle_save_media_cover] never raises either. *)
Theorem download_and_process_cover_total (P : Platform)
    (entity_id size : pystr) (h : hass) :
  let r := _download_and_process_cover entity_id size h in
  (exists b, fst r = Ret b)
  /\ (get (states h) entity_id = None ->
      r = (Ret false, logged (ErrEntityNotFound entity_id) h))
  /\ (forall st attributes,
         get (states h) entity_id = Some (st, attributes) ->
         truthy (entity_picture_of attributes) = false ->
         r = (Ret false, logged (ErrNoEntityPicture entity_id) h))
  /\ (forall st attributes url target_size resp,
         get (states h) entity_id = Some (st, attributes) ->
         truthy (entity_picture_of attributes) = true ->
         image_url (entity_picture_of attributes) (server_port h) = Ret url ->
         get COVER_SIZES size = Some target_size ->
         session_get url = Ret resp ->
         (status resp <> 200%Z
          -> r = (Ret false,
                  logged (ErrDownloadFailed url (status resp)) h))
         /\ (forall image_data e,
                status resp = 200%Z ->
                read resp = Ret image_data ->
                fst (process_image image_data target_size h) = Raise e ->
                r = (Ret false, logged (ErrProcessingImage e) h)))
  /\ (fst r = Ret true ->
      exists st attributes url target_size resp image_data img,
        get (states h) entity_id = Some (st, attributes)
        /\ truthy (entity_picture_of attributes) = true
        /\ image_url (entity_picture_of attributes) (server_port h)
           = Ret url
        /\ get COVER_SIZES size = Some target_size
        /\ session_get url = Ret resp
        /\ status resp = 200%Z
        /\ read resp = Ret image_data
        /\ load_thumbnail image_data target_size = Ret img
        /\ os_makedirs output_dir = Ret tt
        /\ save_check cover_path (center_on_canvas img target_size) = Ret tt
        /\ snd r = cover_written img target_size h)
  /\ (fst r = Ret false ->
      exists m, log (snd r) = m :: log h /\ is_error m = true)
  /\ (exists h', handle_save_media_cover entity_id size h = (Ret tt, h')).
Proof.
  cbv zeta.
  split; [|split; [|split; [|split; [|split; [|split]]]]].
  - rewrite download_and_process_cover_run. eexists. reflexivity.
  - intros H. rewrite download_and_process_cover_run.
    unfold cover_outcome. rewrite H. reflexivity.
  - intros st attributes H Ht. rewrite download_and_process_cover_run.
    unfold cover_outcome. rewrite H, Ht. reflexivity.
  - intros st attributes url target_size resp H Ht Hu Hs Hr. split.
    + intros Hst. rewrite download_and_process_cover_run.
      unfold cover_outcome. rewrite H, Ht, Hu, Hs, Hr.
      apply Z.eqb_neq in Hst. rewrite Hst. reflexivity.
    + intros image_data e Hst Hd He.
      rewrite download_and_process_cover_run.
      unfold cover_outcome. rewrite H, Ht, Hu, Hs, Hr, Hst, Hd.
      rewrite process_image_run in He. cbn [negb Z.eqb Pos.eqb].
      unfold process_outcome in *.
      destruct (load_thumbnail image_data target_size) as [img|e1].
      * destruct (os_makedirs output_dir) as [[]|e2].
        { destruct (save_check cover_path
                      (center_on_canvas img target_size)) as [[]|e3];
            simpl in He; inversion He; reflexivity. }
        { simpl in He; inversion He; reflexivity. }
      * simpl in He; inversion He; reflexivity.
  - rewrite download_and_process_cover_run. cbn [fst snd].
    intros H. apply cover_outcome_true. congruence.
  - rewrite download_and_process_cover_run. cbn [fst snd].
    unfold cover_outcome.
    destruct (get (states h) entity_id) as [[st attributes]|];
      [|intros _; eexists; split; reflexivity].
    destruct (truthy (entity_picture_of attributes));
      cbn [negb]; [|intros _; eexists; split; reflexivity].
    destruct (image_url (entity_picture_of attributes) (server_port h))
      as [url|e]; [|intros _; eexists; split; reflexivity].
    destruct (get COVER_SIZES size) as [target_size|];
      [|intros _; eexists; split; reflexivity].
    destruct (session_get url) as [resp|e];
      [|intros _; eexists; split; reflexivity].
    destruct (Z.eqb (status resp) 200); cbn [negb];
      [|intros _; eexists; split; reflexivity].
    destruct (read resp) as [image_data|e];
      [|intros _; eexists; split; reflexivity].
    unfold process_outcome.
    destruct (load_thumbnail image_data target_size) as [img|e];
      [|intros _; eexists; split; reflexivity].
    destruct (os_makedirs output_dir) as [[]|e];
      [|intros _; eexists; split; reflexivity].
    destruct (save_check cover_path (center_on_canvas img target_size))
      as [[]|e]; [discriminate | intros _; eexists; split; reflexivity].
  - unfold handle_save_media_cover, mbind, mtry, logger.
    rewrite download_and_process_cover_run.
    destruct (fst (cover_outcome entity_id size _));
      eexists; reflexivity.
Qed.

Lemma download_and_process_cover_total_witness :
  _download_and_process_cover (P := Sample.platform_404)
    Sample.player (u "small") Sample.hass1
  = (Ret false,
     logged (ErrDownloadFailed
               (u "http://localhost:8123/api/media_player_proxy/x") 404)
            Sample.hass1).
Proof.
  refine (proj1 (proj1 (proj2 (proj2 (proj2
            (download_and_process_cover_total Sample.platform_404
               Sample.player (u "small") Sample.hass1))))
            (u "playing")
            [ (u "entity_picture", PStr (u "/api/media_player_proxy/x")) ]
            (u "http://localhost:8123/api/media_player_proxy/x")
            (120, 120)%Z (mk_response 404 (Ret []))
            _ _ _ _ _) _).
  - reflexivity.
  - reflexivity.
  - vm_compute. reflexivity.
  - reflexivity.
  - reflexivity.
  - simpl. lia.
Defined.

(** Both presets write the same file: after a call with ['small'] and
    a call with ['large'] there is one file, and it holds the large
    picture. *)
Lemma cover_presets_share_path :
  let h1 := snd (handle_save_media_cover (P := Sample.platform)
                   Sample.player (u "small") Sample.hass1) in
  let h2 := snd (handle_save_media_cover (P := Sample.platform)
                   Sample.player (u "large") h1) in
  keys (files h1) = [u "/config/www/display_tools/cover.jpeg"]
  /\ keys (files h2) = [u "/config/www/display_tools/cover.jpeg"]
  /\ saved_width h1 (u "/config/www/display_tools/cover.jpeg") = Some 120%Z
  /\ saved_width h2 (u "/config/www/display_tools/cover.jpeg") = Some 160%Z.
Proof. vm_compute. repeat split. Qed.

(** Whatever happens, the cover operation touches no other file. *)
Lemma cover_outcome_files (P : Platform) (entity_id size : pystr)
    (h : hass) (path : pystr) :
  path <> cover_path ->
  get (files (snd (cover_outcome entity_id size h))) path
  = get (files h) path.
Proof.
  intros Hp. unfold cover_outcome.
  destruct (get (states h) entity_id) as [[st attributes]|];
    [|reflexivity].
  destruct (truthy (entity_picture_of attributes));
    cbn [negb]; [|reflexivity].
  destruct (image_url (entity_picture_of attributes) (server_port h))
    as [url|e]; [|reflexivity].
  destruct (get COVER_SIZES size) as [target_size|]; [|reflexivity].
  destruct (session_get url) as [resp|e]; [|reflexivity].
  destruct (Z.eqb (status resp) 200); cbn [negb]; [|reflexivity].
  destruct (read resp) as [image_data|e]; [|reflexivity].
  unfold process_outcome.
  destruct (load_thumbnail image_data target_size) as [img|e];
    [|reflexivity].
  destruct (os_makedirs output_dir) as [[]|e]; [|reflexivity].
  destruct (save_check cover_path (center_on_canvas img target_size))
    as [[]|e]; [|reflexivity].
  simpl. apply get_set_other. congruence.
Qed.

(** C8 (amended).  [save_media_cover] writes to one fixed path,
    [/config/www/display_tools/cover.jpeg], whatever the size: no other
    file is touched by a call, and a call that succeeds leaves there a
    JPEG of quality 85 whose dimensions are those of the preset, 120 by
    120 for ['small'] and 160 by 160 for ['large']. *)
Theorem save_media_cover_fixed_path (P : Platform)
    (entity_id size : pystr) (h : hass) :
  let h' := snd (handle_save_media_cover entity_id size h) in
  cover_path = u "/config/www/display_tools/cover.jpeg"
  /\ os_path_join output_dir (u "cover.jpeg") = cover_path
  /\ (forall path, path <> cover_path ->
                   get (files h') path = get (files h) path)
  /\ (fst (_download_and_process_cover entity_id size
             (logged (InfoProcessingCover entity_id size) h)) = Ret true ->
      exists target_size f,
        get COVER_SIZES size = Some target_size
        /\ get (files h') cover_path = Some f
        /\ saved_format f = u "JPEG"
        /\ saved_quality f = 85%Z
        /\ width (saved_image f) = fst target_size
        /\ height (saved_image f) = snd target_size)
  /\ get COVER_SIZES (u "small") = Some (120, 120)%Z
  /\ get COVER_SIZES (u "large") = Some (160, 160)%Z.
Proof.
  cbv zeta.
  split; [reflexivity|]. split; [reflexivity|].
  assert (Hh : snd (handle_save_media_cover entity_id size h)
          = let o := cover_outcome entity_id size
                       (logged (InfoProcessingCover entity_id size) h) in
            logged (if fst o then InfoCoverProcessed entity_id
                    else ErrCoverFailed entity_id) (snd o)).
  { unfold handle_save_media_cover, mbind, mtry, logger.
    rewrite download_and_process_cover_run. cbv zeta.
    fold (logged (InfoProcessingCover entity_id size) h).
    destruct (fst (cover_outcome entity_id size _)); reflexivity. }
  rewrite Hh. cbv zeta. clear Hh.
  set (h0 := logged (InfoProcessingCover entity_id size) h).
  split; [|split; [|split; reflexivity]].
  - intros path Hp.
    transitivity (get (files h0) path); [|reflexivity].
    apply (cover_outcome_files P entity_id size h0 path Hp).
  - intros Ht.
    rewrite download_and_process_cover_run in Ht. cbn [fst] in Ht.
    assert (Hb : fst (cover_outcome entity_id size h0) = true)
      by congruence.
    destruct (cover_outcome_true P entity_id size h0 Hb)
      as (st & at_ & url & ts & resp & data & img & _ & _ & _ & Hs & _
          & _ & _ & _ & _ & _ & Hw).
    exists ts. eexists. split; [exact Hs|].
    rewrite Hw. simpl. rewrite get_set_same.
    repeat split.
Qed.

Lemma save_media_cover_fixed_path_witness :
  get (files (snd (handle_save_media_cover (P := Sample.platform)
                     Sample.player (u "large") Sample.hass1)))
      (u "/other/path")
  = None.
Proof.
  apply (proj1 (proj2 (proj2
           (save_media_cover_fixed_path Sample.platform Sample.player
              (u "large") Sample.hass1))) (u "/other/path")).
  vm_compute. discriminate.
Defined.

(** ** Centring on the canvas *)

Local Open Scope Z_scope.





Local Close Scope Z_scope.

(* ================================================================== *)
(** * Further properties *)

(** ** Dictionaries keep their keys distinct *)

Lemma In_keys_get {V} (d : dict V) (k : pystr) :
  In k (keys d) <-> exists v, get d k = Some v.
Proof.
  destruct (get d k) as [v|] eqn:E.
  - split; [intros _; exists v; reflexivity|].
    intros _. destruct (in_dec (list_eq_dec N.eq_dec) k (keys d)) as [H|H];
      [assumption|].
    apply get_None_not_In in H. congruence.
  - split.
    + intros H. apply get_None_not_In in E. contradiction.
    + intros [v Hv]. discriminate.
Qed.

Lemma keys_set {V} (d : dict V) (k : pystr) (v : V) :
  keys (set d k v) = if contains d k then keys d else keys d ++ [k].
Proof.
  unfold contains.
  induction d as [|[k0 v0] r IH]; simpl; [reflexivity|].
  destruct (PyStr.eqb k0 k) eqn:E; simpl; [reflexivity|].
  rewrite IH. destruct (get r k); reflexivity.
Qed.

Lemma NoDup_keys_set {V} (d : dict V) (k : pystr) (v : V) :
  NoDup (keys d) -> NoDup (keys (set d k v)).
Proof.
  intros H. rewrite keys_set. unfold contains.
  destruct (get d k) eqn:E; [assumption|].
  apply get_None_not_In in E.
  apply NoDup_app; [assumption | repeat constructor; intros [] |].
  intros x Hx [Hk|[]]. subst. contradiction.
Qed.

Lemma NoDup_keys_get {V} (d : dict V) (k : pystr) (v : V) :
  NoDup (keys d) -> In (k, v) d -> get d k = Some v.
Proof.
  induction d as [|[k0 v0] r IH]; simpl; intros Hn Hin; [contradiction|].
  inversion Hn as [|? ? Hk0 Hr]; subst.
  destruct Hin as [Hin|Hin].
  - inversion Hin; subst. rewrite eqb_refl. reflexivity.
  - destruct (PyStr.eqb k0 k) eqn:E.
    + apply eqb_eq in E. subst. exfalso. apply Hk0.
      apply (in_map fst) in Hin. exact Hin.
    + apply IH; assumption.
Qed.

Lemma In_set {V} (d : dict V) (k k' : pystr) (v v' : V) :
  In (k', v') (set d k v) -> (k' = k /\ v' = v) \/ In (k', v') d.
Proof.
  induction d as [|[k0 v0] r IH]; simpl.
  - intros [H|[]]. inversion H; auto.
  - destruct (PyStr.eqb k0 k) eqn:E; simpl.
    + apply eqb_eq in E. subst.
      intros [H|H]; [inversion H; auto | auto].
    + intros [H|H]; [auto|]. destruct (IH H); auto.
Qed.

Lemma length_set {V} (d : dict V) (k : pystr) (v : V) :
  (List.length (set d k v) <= S (List.length d))%nat.
Proof.
  induction d as [|[k0 v0] r IH]; simpl; [lia|].
  destruct (PyStr.eqb k0 k); simpl; lia.
Qed.

(** ** Translation filter: keys, order, narrowing *)

Lemma filter_step_set (translations filtered : dict pystr) (k : pystr) :
  filter_step translations filtered k
  = set filtered k (requested_value translations k).
Proof.
  unfold filter_step, requested_value.
  destruct (get translations k); reflexivity.
Qed.

Lemma filter_fold_NoDup (translations : dict pystr) (ks : list pystr) :
  forall acc, NoDup (keys acc) ->
              NoDup (keys (fold_left (filter_step translations) ks acc)).
Proof.
  induction ks as [|k ks IH]; intros acc H; simpl; [assumption|].
  apply IH. rewrite filter_step_set. apply NoDup_keys_set. assumption.
Qed.

Lemma filter_fold_length (translations : dict pystr) (ks : list pystr) :
  forall acc,
    (List.length (fold_left (filter_step translations) ks acc)
     <= List.length acc + List.length ks)%nat.
Proof.
  induction ks as [|k ks IH]; intros acc; simpl; [lia|].
  specialize (IH (filter_step translations acc k)).
  rewrite filter_step_set in *.
  pose proof (length_set acc k (requested_value translations k)). lia.
Qed.

Lemma filter_fold_keys (translations : dict pystr) (ks : list pystr) :
  forall acc,
    NoDup ks -> (forall k, In k ks -> ~ In k (keys acc)) ->
    keys (fold_left (filter_step translations) ks acc) = keys acc ++ ks.
Proof.
  induction ks as [|k ks IH]; intros acc Hn Hacc; simpl.
  - rewrite app_nil_r. reflexivity.
  - inversion Hn as [|? ? Hk Hks]; subst.
    rewrite IH.
    + rewrite filter_step_set, keys_set. unfold contains.
      assert (E : get acc k = None).
      { apply get_None_not_In. apply Hacc. left. reflexivity. }
      rewrite E, <- app_assoc. reflexivity.
    + assumption.
    + intros k' Hk'. rewrite filter_step_set, keys_set. unfold contains.
      assert (E : get acc k = None).
      { apply get_None_not_In. apply Hacc. left. reflexivity. }
      rewrite E. intros Hin. apply in_app_or in Hin.
      destruct Hin as [Hin|[Hin|[]]].
      * apply (Hacc k'); [right; assumption | assumption].
      * subst. contradiction.
Qed.

(** X1.  The keys of a filtered mapping are the requested keys, each
    once: the count the handlers report is the number of distinct
    requested keys, at most the length of the request, and when no key
    is requested twice the mapping lists them in the order of the
    request. *)
Theorem filter_keys (translations : dict pystr) (keys_ : list pystr) :
  keys_ <> [] ->
  let filtered := _filter_translations_by_keys translations (Some keys_) in
  NoDup (keys filtered)
  /\ (forall k, In k (keys filtered) <-> In k keys_)
  /\ (0 < len filtered <= Z.of_nat (List.length keys_))%Z
  /\ (NoDup keys_ -> keys filtered = keys_).
Proof.
  intros Hne filtered.
  assert (Hf : filtered = fold_left (filter_step translations) keys_ []).
  { subst filtered. destruct keys_; [congruence | reflexivity]. }
  split; [|split; [|split]].
  - rewrite Hf. apply filter_fold_NoDup. constructor.
  - intros k. rewrite In_keys_get, Hf, filter_fold_get.
    destruct (existsb (PyStr.eqb k) keys_) eqn:E.
    + apply existsb_eqb_In in E. split; [auto | eexists; reflexivity].
    + split; [intros [v Hv]; discriminate|].
      intros H. apply existsb_eqb_In in H. congruence.
  - unfold len. split.
    + destruct keys_ as [|k0 ks]; [congruence|].
      assert (Hin : In k0 (keys filtered)).
      { apply In_keys_get. rewrite Hf, filter_fold_get. simpl.
        rewrite eqb_refl. simpl. eexists. reflexivity. }
      destruct filtered; [destruct Hin | simpl; lia].
    + rewrite Hf.
      pose proof (filter_fold_length translations keys_ []). simpl in H.
      lia.
  - intros Hn. rewrite Hf.
    apply (filter_fold_keys translations keys_ [] Hn). intros k _ [].
Qed.

Lemma filter_keys_witness :
  keys (_filter_translations_by_keys Sample.translations
          (Some [u "zzz"; u "title"]))
  = [u "zzz"; u "title"].
Proof.
  apply (proj2 (proj2 (proj2
           (filter_keys Sample.translations [u "zzz"; u "title"]
              ltac:(discriminate))))).
  repeat constructor; simpl; intuition discriminate.
Defined.

Lemma fold_left_ext_in {A K} (f g : A -> K -> A) (ks : list K) :
  (forall acc k, In k ks -> f acc k = g acc k) ->
  forall a, fold_left f ks a = fold_left g ks a.
Proof.
  induction ks as [|k ks IH]; intros H a; simpl; [reflexivity|].
  rewrite H by (left; reflexivity).
  apply IH. intros acc k' Hk'. apply H. right. assumption.
Qed.

Lemma filter_get_requested (translations : dict pystr)
    (keys_ : list pystr) (k : pystr) :
  keys_ <> [] -> In k keys_ ->
  get (_filter_translations_by_keys translations (Some keys_)) k
  = Some (requested_value translations k).
Proof.
  intros Hne Hin. destruct keys_ as [|k0 ks]; [congruence|].
  unfold _filter_translations_by_keys. rewrite filter_fold_get.
  apply existsb_eqb_In in Hin. rewrite Hin. reflexivity.
Qed.

(** X2.  Filtering an already filtered mapping by some of the same keys
    gives what filtering the source by those keys gives; in particular
    filtering twice by the same keys changes nothing. *)
Theorem filter_narrowing (translations : dict pystr)
    (keys_ narrower : list pystr) :
  keys_ <> [] -> narrower <> [] ->
  (forall k, In k narrower -> In k keys_) ->
  _filter_translations_by_keys
    (_filter_translations_by_keys translations (Some keys_))
    (Some narrower)
  = _filter_translations_by_keys translations (Some narrower)
  /\ _filter_translations_by_keys
       (_filter_translations_by_keys translations (Some keys_))
       (Some keys_)
     = _filter_translations_by_keys translations (Some keys_).
Proof.
  intros Hne Hne' Hsub.
  assert (Hstep : forall ks,
             (forall k, In k ks -> In k keys_) ->
             fold_left
               (filter_step
                  (_filter_translations_by_keys translations (Some keys_)))
               ks []
             = fold_left (filter_step translations) ks []).
  { intros ks Hks. apply fold_left_ext_in. intros acc k Hk.
    rewrite !filter_step_set. f_equal.
    unfold requested_value at 1.
    rewrite (filter_get_requested translations keys_ k Hne (Hks k Hk)).
    reflexivity. }
  split.
  - destruct narrower as [|k ks]; [congruence|].
    apply (Hstep (k :: ks) Hsub).
  - destruct keys_ as [|k ks]; [congruence|].
    apply (Hstep (k :: ks)). auto.
Qed.

Lemma filter_narrowing_witness :
  _filter_translations_by_keys
    (_filter_translations_by_keys Sample.translations
       (Some [u "title"; u "missing"]))
    (Some [u "missing"])
  = _filter_translations_by_keys Sample.translations (Some [u "missing"]).
Proof.
  apply (proj1 (filter_narrowing Sample.translations
                  [u "title"; u "missing"] [u "missing"]
                  ltac:(discriminate) ltac:(discriminate)
                  ltac:(intros k [<-|[]]; right; left; reflexivity))).
Defined.

(** ** Grouping keeps the grouped mapping well formed *)

Lemma set_nonempty {V} (d : dict V) (k : pystr) (v : V) : set d k v <> [].
Proof.
  destruct d as [|[k0 v0] r]; simpl; [discriminate|].
  destruct (PyStr.eqb k0 k); discriminate.
Qed.

Lemma group_step_wf (g : dict (dict pystr)) (item : pystr * pystr) :
  grouped_wf g -> grouped_wf (group_step g item).
Proof.
  destruct item as [key value]. intros [Hn Hin].
  rewrite group_step_slot.
  destruct (slot_of key) as [[c f]|]; [|split; assumption].
  split.
  - apply NoDup_keys_set. assumption.
  - intros c' inner' H. apply In_set in H. destruct H as [[-> ->]|H].
    + split; [apply set_nonempty|].
      apply NoDup_keys_set.
      destruct (get g c) as [inner|] eqn:E; [|constructor].
      apply get_In in E. apply (Hin c inner E).
    + apply (Hin c' inner' H).
Qed.

Lemma group_translations_wf (translations : dict pystr) :
  grouped_wf (group_translations translations).
Proof.
  unfold group_translations.
  assert (H : grouped_wf []) by (split; [constructor | intros c i []]).
  revert H. generalize (@nil (pystr * dict pystr)).
  induction translations as [|item l IH]; intros g H; simpl; [assumption|].
  apply IH. apply group_step_wf. assumption.
Qed.

Lemma group_step_length (g : dict (dict pystr)) (item : pystr * pystr) :
  (List.length (group_step g item) <= S (List.length g))%nat.
Proof.
  destruct item as [key value]. rewrite group_step_slot.
  destruct (slot_of key) as [[c f]|]; [apply length_set | lia].
Qed.

Lemma group_fold_length (translations : dict pystr) :
  forall g,
    (List.length (fold_left group_step translations g)
     <= List.length g + List.length translations)%nat.
Proof.
  induction translations as [|item l IH]; intros g; simpl; [lia|].
  specialize (IH (group_step g item)).
  pose proof (group_step_length g item). lia.
Qed.

(** X3.  The grouped translations are well formed whatever the flat
    mapping is: no component occurs twice, every component present has
    at least one key, no key occurs twice under a component, and there
    are no more components than entries. *)
Theorem group_translations_well_formed (translations : dict pystr) :
  NoDup (keys (group_translations translations))
  /\ (forall c inner,
         get (group_translations translations) c = Some inner ->
         inner <> [] /\ NoDup (keys inner))
  /\ (len (group_translations translations) <= len translations)%Z.
Proof.
  destruct (group_translations_wf translations) as [Hn Hin].
  split; [assumption|]. split.
  - intros c inner H. apply get_In in H. apply (Hin c inner H).
  - unfold len, group_translations.
    pose proof (group_fold_length translations []). simpl in H. lia.
Qed.

Lemma group_translations_well_formed_witness :
  [ (u "open", u "Open") ] <> []
  /\ NoDup (keys [ (u "open", u "Open") ]).
Proof.
  apply (proj1 (proj2 (group_translations_well_formed Sample.translations))
           (u "cover") [ (u "open", u "Open") ]).
  reflexivity.
Defined.

(** When every entry that writes to a slot carries the same value, the
    slot holds that value. *)
Lemma get2_group_agree (translations : dict pystr) (c f v : pystr) :
  (exists key, In (key, v) translations /\ grouped_under key c f) ->
  (forall key' v', In (key', v') translations -> grouped_under key' c f ->
                   v' = v) ->
  get2 (group_translations translations) c f = Some v.
Proof.
  induction translations as [|[key0 v0] l IH] using rev_ind.
  - intros (key & [] & _).
  - intros (key & Hin & Hg) Hall.
    rewrite group_translations_snoc, get2_group_step.
    destruct (slot_dec key0 c f) as [Hm|Hm].
    + pose proof Hm as Hs. apply slot_of_Some in Hs. rewrite Hs.
      rewrite !eqb_refl. simpl. f_equal.
      apply (Hall key0 v0); [|assumption].
      apply in_or_app. right. left. reflexivity.
    + assert (Hrest : get2 (group_translations l) c f = Some v).
      { apply IH.
        - apply in_app_or in Hin. destruct Hin as [Hin|[Hin|[]]].
          + exists key. auto.
          + inversion Hin; subst. contradiction.
        - intros key' v' Hin' Hg'. apply (Hall key' v'); [|assumption].
          apply in_or_app. left. assumption. }
      destruct (slot_of key0) as [[c' f']|] eqn:E; [|assumption].
      destruct (PyStr.eqb c' c && PyStr.eqb f' f) eqn:E1; [|assumption].
      exfalso. apply Hm. apply andb_true_iff in E1. destruct E1 as [H1 H2].
      apply eqb_eq in H1, H2. subst. apply slot_of_Some. assumption.
Qed.

(** X4.  Filtering then grouping: a requested key of the component
    shape lands in its slot with its translation, or, when the source
    has none, with the key's own full text, provided no other requested
    key writes to the same slot. *)
Theorem group_filtered_placeholder (translations : dict pystr)
    (keys_ : list pystr) (k c f : pystr) :
  In k keys_ ->
  grouped_under k c f ->
  (forall k', In k' keys_ -> grouped_under k' c f -> k' = k) ->
  get2 (group_translations
          (_filter_translations_by_keys translations (Some keys_))) c f
  = Some (match get translations k with Some v => v | None => k end).
Proof.
  intros Hin Hg Huniq.
  assert (Hne : keys_ <> []) by (destruct keys_; [destruct Hin | discriminate]).
  set (filtered := _filter_translations_by_keys translations (Some keys_)).
  assert (Hnd : NoDup (keys filtered)).
  { subst filtered. destruct keys_ as [|k0 ks]; [congruence|].
    apply filter_fold_NoDup. constructor. }
  assert (Hentry : forall key' v', In (key', v') filtered ->
             In key' keys_ /\ v' = requested_value translations key').
  { intros key' v' H.
    pose proof (NoDup_keys_get filtered key' v' Hnd H) as Hget.
    assert (Hk : In key' keys_).
    { destruct (existsb (PyStr.eqb key') keys_) eqn:E.
      - apply existsb_eqb_In. assumption.
      - exfalso. subst filtered. destruct keys_ as [|k0 ks]; [congruence|].
        unfold _filter_translations_by_keys in Hget.
        rewrite filter_fold_get, E in Hget. discriminate. }
    split; [assumption|].
    subst filtered.
    rewrite (filter_get_requested translations keys_ key' Hne Hk) in Hget.
    congruence. }
  apply get2_group_agree.
  - exists k. split; [|assumption].
    apply get_In. apply filter_get_requested; assumption.
  - intros key' v' H Hg'. destruct (Hentry key' v' H) as [Hk ->].
    rewrite (Huniq key' Hk Hg'). reflexivity.
Qed.

Lemma group_filtered_placeholder_witness :
  get2 (group_translations
          (_filter_translations_by_keys Sample.translations
             (Some [u "component.vacuum.state.docked"; u "title"])))
       (u "vacuum") (u "docked")
  = Some (u "component.vacuum.state.docked").
Proof.
  apply (group_filtered_placeholder Sample.translations
           [u "component.vacuum.state.docked"; u "title"]
           (u "component.vacuum.state.docked") (u "vacuum") (u "docked")).
  - left. reflexivity.
  - unfold grouped_under. simpl. repeat split; lia.
  - intros k' [<-|[<-|[]]] H; [reflexivity|].
    exfalso. unfold grouped_under in H. simpl in H. lia.
Defined.

(** ** The comma split *)

Lemma split_no_sep (sep : N) (k : pystr) :
  ~ In sep k -> split sep k = [k].
Proof.
  induction k as [|c r IH]; simpl; intros H; [reflexivity|].
  destruct (N.eqb c sep) eqn:E.
  - apply N.eqb_eq in E. subst. exfalso. apply H. left. reflexivity.
  - rewrite IH by tauto. reflexivity.
Qed.

Lemma comma_split_clean_key (k : pystr) :
  clean_key k -> comma_split k = [k].
Proof.
  intros (Hne & Hs & Hc). unfold comma_split.
  rewrite (split_no_sep comma k Hc). cbn [filter]. rewrite Hs.
  destruct k; [congruence|]. cbn [nonempty map]. rewrite Hs. reflexivity.
Qed.

Lemma comma_split_join (ks : list pystr) :
  Forall clean_key ks -> comma_split (join comma ks) = ks.
Proof.
  induction ks as [|k ks IH]; intros H; [reflexivity|].
  inversion H as [|? ? Hk Hks]; subst.
  destruct ks as [|k' ks'].
  - simpl. apply comma_split_clean_key. assumption.
  - change (join comma (k :: k' :: ks'))
      with (k ++ comma :: join comma (k' :: ks')).
    rewrite comma_split_app, IH by assumption.
    rewrite comma_split_clean_key by assumption. reflexivity.
Qed.

(** X5.  Round trip of the comma form: clean keys (not empty, trimmed,
    without a comma) joined with commas are recovered exactly, in
    order, by the comma split; so a caller that sends such a text,
    bare or in a one-element list, gets exactly those keys, as long as
    the text is not valid JSON. *)
Theorem comma_keys_round_trip (B : Builtins) (ks : list pystr) (h : hass) :
  Forall clean_key ks ->
  comma_split (join comma ks) = ks
  /\ (json_loads (join comma ks) = Raise JSONDecodeError ->
      normalize_keys (PStr (join comma ks)) h
      = (Ret (PList (map PStr ks)), h)
      /\ normalize_keys (PList [PStr (join comma ks)]) h
         = (Ret (PList (map PStr ks)), h)).
Proof.
  intros H. split; [apply comma_split_join; assumption|].
  intros Hj. rewrite !normalize_keys_run. simpl.
  rewrite loads_or_split_run, Hj, comma_split_join by assumption.
  split; reflexivity.
Qed.

Lemma comma_keys_round_trip_witness :
  normalize_keys (B := Reference.cpython)
    (PStr (join comma [u "component.cover.state.open"; u "title"])) hass0
  = (Ret (PList [PStr (u "component.cover.state.open"); PStr (u "title")]),
     hass0).
Proof.
  refine (proj1 (proj2
            (comma_keys_round_trip Reference.cpython
               [u "component.cover.state.open"; u "title"] hass0 _) _)).
  - repeat constructor; try discriminate;
      simpl; intuition discriminate.
  - vm_compute. reflexivity.
Defined.

Lemma In_lstrip (s : pystr) (c : N) : In c (lstrip s) -> In c s.
Proof.
  induction s as [|x s IH]; simpl; [tauto|].
  destruct (is_space x); simpl; tauto.
Qed.

Lemma In_strip (s : pystr) (c : N) : In c (strip s) -> In c s.
Proof.
  unfold strip, rstrip. intros H.
  apply In_lstrip. apply in_rev. apply In_lstrip. apply in_rev.
  assumption.
Qed.

Lemma split_piece_no_sep (sep : N) (s p : pystr) :
  In p (split sep s) -> ~ In sep p.
Proof.
  revert p. induction s as [|c r IH]; simpl; intros p H.
  - destruct H as [<-|[]]. intros [].
  - destruct (N.eqb c sep) eqn:E.
    + destruct H as [<-|H]; [intros [] | apply IH; assumption].
    + pose proof (split_nonempty sep r) as Hne.
      destruct (split sep r) as [|q qs]; [contradiction|].
      destruct H as [<-|H].
      * intros [Hc|Hq].
        { subst. rewrite N.eqb_refl in E. discriminate. }
        { apply (IH q); [left; reflexivity | assumption]. }
      * apply IH. right. assumption.
Qed.

Lemma split_length (sep : N) (s : pystr) :
  List.length (split sep s) = S (count_occ N.eq_dec s sep).
Proof.
  induction s as [|c r IH]; simpl; [reflexivity|].
  destruct (N.eqb c sep) eqn:E.
  - apply N.eqb_eq in E. subst.
    destruct (N.eq_dec sep sep); [|congruence]. simpl. rewrite IH.
    reflexivity.
  - apply N.eqb_neq in E.
    destruct (N.eq_dec c sep); [congruence|].
    pose proof (split_nonempty sep r) as Hne.
    destruct (split sep r); [contradiction|]. simpl in *. assumption.
Qed.

Lemma strip_ends (s : pystr) :
  (forall c r, strip s = c :: r -> is_space c = false)
  /\ (forall c r, strip s = r ++ [c] -> is_space c = false).
Proof.
  split.
  - intros c r H.
    apply (lstrip_head (strip s) c r).
    unfold strip. rewrite lstrip_rstrip by apply lstrip_idem. exact H.
  - intros c r H. unfold strip, rstrip in H.
    apply (f_equal (@rev N)) in H.
    rewrite rev_involutive, rev_app_distr in H. simpl in H.
    apply (lstrip_head _ c (rev r) H).
Qed.

(** X6.  What the comma split returns: no key contains a comma, no key
    starts or ends with white space, and there are at most as many
    keys as commas in the text plus one. *)
Theorem comma_split_keys (s : pystr) :
  (forall k, In k (comma_split s) ->
             ~ In comma k
             /\ (forall c r, k = c :: r -> is_space c = false)
             /\ (forall c r, k = r ++ [c] -> is_space c = false))
  /\ (List.length (comma_split s) <= S (count_occ N.eq_dec s comma))%nat.
Proof.
  split.
  - intros k H. unfold comma_split in H.
    apply in_map_iff in H. destruct H as [p [<- Hp]].
    apply filter_In in Hp. destruct Hp as [Hp _].
    split; [|apply strip_ends].
    intros Hc. apply In_strip in Hc.
    exact (split_piece_no_sep comma s p Hp Hc).
  - unfold comma_split. rewrite length_map.
    rewrite <- (split_length comma s). apply filter_length_le.
Qed.

Lemma comma_split_keys_witness :
  ~ In comma (u "b c").
Proof.
  refine (proj1 (proj1 (comma_split_keys (u " a , b c ,")) (u "b c") _)).
  right. left. reflexivity.
Defined.

(** ** The ESPHome handler: error path, frame, blank keys *)

Section EsphomeFacts.

Context {B : Builtins} {P : Platform}.

Lemma normalize_keys_state (keys_raw keys : pyval) (h h1 : hass) :
  normalize_keys keys_raw h = (Ret keys, h1) ->
  stored h1 = stored h /\ files h1 = files h /\ states h1 = states h
  /\ server_port h1 = server_port h
  /\ exists new, log h1 = new ++ log h.
Proof.
  rewrite normalize_keys_run. intros H.
  assert (Hc : h1 = h \/ exists e, h1 = logged (ErrProcessingKeys e) h).
  { destruct keys_raw; try (inversion H; left; reflexivity);
      match type of H with
      | context [normalize_body ?x] => destruct (normalize_body x)
      end; inversion H; eauto. }
  destruct Hc as [-> | [e ->]].
  - repeat split. exists []. reflexivity.
  - repeat split. exists [ErrProcessingKeys e]. reflexivity.
Qed.

Lemma normalize_keys_total (keys_raw : pyval) (h : hass) :
  exists keys h1, normalize_keys keys_raw h = (Ret keys, h1).
Proof.
  rewrite normalize_keys_run.
  destruct keys_raw; try (eexists; eexists; reflexivity);
    match goal with
    | |- context [normalize_body ?x] => destruct (normalize_body x)
    end; eexists; eexists; reflexivity.
Qed.

Lemma after_fetch_state (language category : pystr) (h : hass) :
  let h1 := after_fetch language category h in
  stored h1 = stored h /\ files h1 = files h /\ states h1 = states h
  /\ server_port h1 = server_port h
  /\ exists new, log h1 = new ++ log h.
Proof.
  unfold after_fetch.
  destruct (async_get_translations language category) as [t|e]; cbv zeta.
  - repeat split. exists []. reflexivity.
  - repeat split. exists [ErrFetchTranslations language category e].
    reflexivity.
Qed.

(** The two ways the [try] block ends. *)
Lemma esphome_try_cases (language category : pystr) (keys : pyval)
    (h : hass) :
  (exists translations requested,
      esphome_try language category keys h
      = (Ret tt,
         esphome_done language category translations requested
           (after_fetch language category h)))
  \/ (exists e,
         esphome_try language category keys h
         = (Raise e, after_fetch language category h)).
Proof.
  rewrite esphome_try_run. cbv zeta.
  destruct (flat_translations language category keys) as [t|e];
    [|right; eauto].
  destruct (requested_count keys) as [n|e]; [left; eauto | right; eauto].
Qed.

End EsphomeFacts.



Lemma find_non_str (l : list pyval) (x : pyval) :
  In x l -> is_str x = false ->
  exists y, find (fun k => negb (is_str k)) l = Some y /\ is_str y = false.
Proof.
  intros Hin Hx.
  destruct (find (fun k => negb (is_str k)) l) as [y|] eqn:E.
  - exists y. split; [reflexivity|].
    apply find_some in E. destruct E as [_ E].
    apply negb_true_iff in E. assumption.
  - exfalso. pose proof (find_none _ _ E x Hin) as H. simpl in H.
    rewrite Hx in H. discriminate.
Qed.

(** X8.  Keys the filter cannot work with put the handler on its error
    path: a list in which some element is not a string, and a truthy
    value that cannot be iterated (a number or [True], as [json.loads]
    returns for the text [5]), make the [try] block raise [TypeError]
    or [AttributeError] before anything is saved. *)
Theorem esphome_rejects_bad_keys (B : Builtins) (P : Platform)
    (language category : pystr) (keys : pyval) (h : hass) :
  (exists l x, keys = PList l /\ In x l /\ is_str x = false)
  \/ (truthy keys = true /\ py_iter keys = Raise TypeError) ->
  exists e,
    (e = TypeError \/ e = AttributeError)
    /\ esphome_try language category keys h
       = (Raise e, after_fetch language category h).
Proof.
  intros Hk. rewrite esphome_try_run. cbv zeta.
  unfold flat_translations, requested_keys.
  destruct Hk as [(l & x & -> & Hin & Hx) | [Ht Hi]].
  - assert (Ht : truthy (PList l) = true)
      by (destruct l; [destruct Hin | reflexivity]).
    rewrite Ht. cbn [py_iter bind].
    destruct (existsb (fun k => negb (hashable k)) l).
    + exists TypeError. split; [left|]; reflexivity.
    + destruct (find_non_str l x Hin Hx) as (y & -> & Hy).
      destruct y; try discriminate;
        (exists AttributeError; split; [right|]; reflexivity)
        || (exists TypeError; split; [left|]; reflexivity).
  - rewrite Ht, Hi. exists TypeError. split; [left|]; reflexivity.
Qed.

Lemma esphome_rejects_bad_keys_witness :
  exists e,
    (e = TypeError \/ e = AttributeError)
    /\ esphome_try (B := Reference.cpython) (P := Sample.platform)
         (u "en") (u "state") (PList [PNone; PStr (u "title")]) Sample.hass1
       = (Raise e, Sample.hass1).
Proof.
  apply (esphome_rejects_bad_keys Reference.cpython Sample.platform
           (u "en") (u "state") (PList [PNone; PStr (u "title")])
           Sample.hass1).
  left. exists [PNone; PStr (u "title")], PNone.
  split; [reflexivity|]. split; [left; reflexivity | reflexivity].
Defined.

(** X9.  Keys that come out empty mean no filter: with [keys] falsy
    (an empty list, an empty string, [0], [None]) the [try] block does
    what it does for [None]; so a text that [json.loads] rejects and
    whose comma pieces are all blank, and an empty list, give the same
    result as no [keys] at all. *)
Theorem esphome_blank_keys (B : Builtins) (P : Platform)
    (language category : pystr) (h : hass) :
  (forall keys, truthy keys = false ->
                esphome_try language category keys h
                = esphome_try language category PNone h)
  /\ handle_get_translations_esphome language category (PList []) h
     = handle_get_translations_esphome language category PNone h
  /\ (forall s, json_loads s = Raise JSONDecodeError ->
                comma_split s = [] ->
                handle_get_translations_esphome language category
                  (PStr s) h
                = handle_get_translations_esphome language category
                    PNone h).
Proof.
  assert (Hf : forall keys h0, truthy keys = false ->
                 esphome_try language category keys h0
                 = esphome_try language category PNone h0).
  { intros keys h0 Ht. rewrite !esphome_try_run.
    unfold flat_translations, requested_count. rewrite Ht. reflexivity. }
  split; [intros keys; apply Hf|]. split.
  - unfold handle_get_translations_esphome, mbind.
    rewrite !normalize_keys_run. cbn [normalize_body].
    unfold mtry. rewrite (Hf (PList []) h eq_refl). reflexivity.
  - intros s Hs Hc.
    unfold handle_get_translations_esphome, mbind.
    rewrite !normalize_keys_run. cbn [normalize_body].
    rewrite loads_or_split_run, Hs, Hc. cbn [map].
    unfold mtry. rewrite (Hf (PList []) h eq_refl). reflexivity.
Qed.

Lemma esphome_blank_keys_witness :
  handle_get_translations_esphome (B := Reference.cpython)
    (P := Sample.platform) (u "en") (u "state") (PStr (u " , ,"))
    Sample.hass1
  = handle_get_translations_esphome (B := Reference.cpython)
      (P := Sample.platform) (u "en") (u "state") PNone Sample.hass1.
Proof.
  apply (proj2 (proj2 (esphome_blank_keys Reference.cpython Sample.platform
                         (u "en") (u "state") Sample.hass1))).
  - vm_compute. reflexivity.
  - vm_compute. reflexivity.
Defined.

(** X10.  Whatever its input and whatever fails, the ESPHome handler
    writes no file, leaves every entity but the sensor as it was,
    leaves the sensor set, and only adds to the log. *)
Theorem esphome_frame (B : Builtins) (P : Platform)
    (language category : pystr) (keys_raw : pyval) (h : hass) :
  let h' := snd (handle_get_translations_esphome language category
                   keys_raw h) in
  files h' = files h
  /\ server_port h' = server_port h
  /\ (forall entity_id, entity_id <> SENSOR_ENTITY_ID ->
                        get (states h') entity_id
                        = get (states h) entity_id)
  /\ contains (states h') SENSOR_ENTITY_ID = true
  /\ (exists new, log h' = new ++ log h).
Proof.
  cbv zeta.
  destruct (normalize_keys_total keys_raw h) as (keys & h1 & Hn).
  destruct (normalize_keys_state _ _ _ _ Hn)
    as (_ & Hf1 & Hs1 & Hp1 & (new1 & Hl1)).
  destruct (after_fetch_state language category h1)
    as (_ & Hf2 & Hs2 & Hp2 & (new2 & Hl2)).
  unfold handle_get_translations_esphome, mbind, mtry. rewrite Hn.
  destruct (esphome_try_cases language category keys h1)
    as [(t & n & ->) | (e & ->)]; cbn.
  - rewrite Hf2, Hp2, Hs2, Hl2, Hf1, Hp1, Hs1, Hl1.
    split; [reflexivity|]. split; [reflexivity|]. split; [|split].
    + intros entity_id Hne. apply get_set_other. congruence.
    + unfold contains. rewrite get_set_same. reflexivity.
    + eexists (_ :: new2 ++ new1). simpl. rewrite <- app_assoc.
      reflexivity.
  - rewrite Hf2, Hp2, Hs2, Hl2, Hf1, Hp1, Hs1, Hl1.
    split; [reflexivity|]. split; [reflexivity|]. split; [|split].
    + intros entity_id Hne. apply get_set_other. congruence.
    + unfold contains. rewrite get_set_same. reflexivity.
    + eexists (_ :: new2 ++ new1). simpl. rewrite <- app_assoc.
      reflexivity.
Qed.

Lemma esphome_frame_witness :
  get (states (snd (handle_get_translations_esphome
                      (B := Reference.cpython) (P := Sample.platform)
                      (u "en") (u "state") PNone Sample.hass1)))
      Sample.player
  = get (states Sample.hass1) Sample.player.
Proof.
  apply (proj1 (proj2 (proj2
           (esphome_frame Reference.cpython Sample.platform
              (u "en") (u "state") PNone Sample.hass1)))).
  vm_compute. discriminate.
Defined.

(** ** The ESPHome handler: what a successful call publishes *)

Lemma add_component_attributes_get (B : Builtins)
    (g : dict (dict pystr)) :
  forall (attributes : dict pyval) (k : pystr),
    NoDup (keys g) ->
    get (add_component_attributes attributes g) k
    = match get g k with
      | Some inner => Some (PStr (json_dumps inner))
      | None => get attributes k
      end.
Proof.
  unfold add_component_attributes.
  induction g as [|[c inner] r IH]; intros attributes k Hn;
    [reflexivity|].
  inversion Hn as [|? ? Hc Hr]; subst. cbn [fold_left fst snd get].
  rewrite (IH _ k Hr).
  destruct (PyStr.eqb c k) eqn:E.
  - apply eqb_eq in E. subst k.
    assert (Hnone : get r c = None) by (apply get_None_not_In; exact Hc).
    rewrite Hnone. apply get_set_same.
  - destruct (get r k); [reflexivity|].
    apply get_set_other. apply eqb_neq. assumption.
Qed.

(** X11.  After a successful call the sensor's state is the language,
    every component of the grouped translations is an attribute that
    holds the JSON text of its bucket (also when the component has the
    name of one of the fixed attributes, which it then replaces), and
    every other attribute is the fixed one. *)
Theorem esphome_sensor_attributes (B : Builtins) (P : Platform)
    (language category : pystr) (keys : pyval) (h h2 : hass) :
  esphome_try language category keys h = (Ret tt, h2) ->
  exists translations requested attributes,
    flat_translations language category keys = Ret translations
    /\ requested_count keys = Ret requested
    /\ get (states h2) SENSOR_ENTITY_ID = Some (language, attributes)
    /\ (forall c inner,
           get (group_translations translations) c = Some inner ->
           get attributes c = Some (PStr (json_dumps inner)))
    /\ (forall name,
           get (group_translations translations) name = None ->
           get attributes name
           = get (sensor_attributes language category translations
                    requested) name).
Proof.
  intros Ht. rewrite esphome_try_run in Ht. cbv zeta in Ht.
  destruct (flat_translations language category keys) as [t|e];
    [|discriminate].
  destruct (requested_count keys) as [n|e]; [|discriminate].
  inversion Ht as [Hh2]. clear Ht.
  exists t, n. eexists.
  split; [reflexivity|]. split; [reflexivity|]. split.
  - cbn [esphome_done states]. apply get_set_same.
  - pose proof (group_translations_wf t) as [Hn _]. split.
    + intros c inner Hc.
      rewrite (add_component_attributes_get B _ _ c Hn), Hc. reflexivity.
    + intros name Hc.
      rewrite (add_component_attributes_get B _ _ name Hn), Hc.
      reflexivity.
Qed.

Lemma esphome_sensor_attributes_witness :
  exists attributes,
    get (states (snd (esphome_try (B := Reference.cpython)
                        (P := Sample.platform) (u "en") (u "state")
                        PNone Sample.hass1)))
        SENSOR_ENTITY_ID
    = Some (u "en", attributes)
    /\ get attributes (u "cover")
       = Some (PStr (u "{" ++ quoted (u "open") ++ u ": "
                     ++ quoted (u "Open") ++ u "}")).
Proof.
  destruct (esphome_sensor_attributes Reference.cpython Sample.platform
              (u "en") (u "state") PNone Sample.hass1
              (snd (esphome_try (B := Reference.cpython)
                      (P := Sample.platform) (u "en") (u "state")
                      PNone Sample.hass1)))
    as (t & n & attributes & Hflat & _ & Hs & Hc & _).
  - vm_compute. reflexivity.
  - exists attributes. split; [exact Hs|].
    inversion Hflat; subst t.
    rewrite (Hc (u "cover") [ (u "open", u "Open") ]) by reflexivity.
    vm_compute. reflexivity.
Defined.

Lemma py_iter_len (v : pyval) (l : list pyval) :
  py_iter v = Ret l -> py_len v = Ret (Z.of_nat (List.length l)).
Proof.
  destruct v; simpl; intros H; inversion H; subst;
    try reflexivity; unfold len, keys; rewrite !length_map; reflexivity.
Qed.

Lemma py_iter_truthy (v : pyval) (l : list pyval) :
  py_iter v = Ret l -> truthy v = true -> l <> [].
Proof.
  destruct v as [| | | |s|b|l0|l0|d]; simpl; intros H Ht;
    inversion H; subst.
  - destruct s; [discriminate Ht | discriminate].
  - destruct b; [discriminate Ht | discriminate].
  - destruct l; [discriminate Ht | discriminate].
  - destruct l; [discriminate Ht | discriminate].
  - destruct d; [discriminate Ht | discriminate].
Qed.

Lemma strs_of_length (l : list pyval) :
  find (fun k => negb (is_str k)) l = None ->
  List.length (strs_of l) = List.length l.
Proof.
  induction l as [|x l IH]; simpl; [reflexivity|].
  destruct x; simpl; try discriminate.
  intros H. rewrite IH by assumption. reflexivity.
Qed.

Lemma filter_len_bounds (translations : dict pystr) (ks : list pystr) :
  ks <> [] ->
  (0 < len (_filter_translations_by_keys translations (Some ks))
   <= Z.of_nat (List.length ks))%Z.
Proof.
  intros Hne. destruct ks as [|k0 ks]; [congruence|].
  unfold len, _filter_translations_by_keys. split.
  - assert (H : get (fold_left (filter_step translations) (k0 :: ks) [])
                  k0 <> None).
    { rewrite filter_fold_get. simpl. rewrite eqb_refl. discriminate. }
    destruct (fold_left (filter_step translations) (k0 :: ks) []);
      [simpl in H; congruence | simpl; lia].
  - pose proof (filter_fold_length translations (k0 :: ks) []).
    simpl in *. lia.
Qed.

(** X12.  The two counts of the saved record: without keys the
    requested count is 0 and the translations count is the size of the
    fetched mapping; with keys the translations count is positive and
    never exceeds the requested count, which counts repeated keys. *)
Theorem esphome_counts (B : Builtins) (P : Platform)
    (language category : pystr) (keys : pyval) (h h2 : hass) :
  esphome_try language category keys h = (Ret tt, h2) ->
  exists saved t n,
    stored h2 = Some saved
    /\ get saved (u "translations_count") = Some (PInt t)
    /\ get saved (u "requested_keys_count") = Some (PInt n)
    /\ (truthy keys = false ->
        n = 0%Z /\ t = len (fetched language category))
    /\ (truthy keys = true -> (0 < t <= n)%Z).
Proof.
  intros Ht. rewrite esphome_try_run in Ht. cbv zeta in Ht.
  destruct (flat_translations language category keys) as [t|e] eqn:Ef;
    [|discriminate].
  destruct (requested_count keys) as [n|e] eqn:Ec; [|discriminate].
  inversion Ht as [Hh2]. clear Ht.
  eexists. exists (len t), n.
  split; [reflexivity|].
  split; [apply get_update_in; reflexivity|].
  split; [apply get_update_in; reflexivity|].
  unfold flat_translations, requested_count in *.
  split; intros Hk; rewrite Hk in *.
  - inversion Ef. inversion Ec. split; reflexivity.
  - unfold requested_keys in Ef.
    destruct (py_iter keys) as [l|e] eqn:Ei; [|discriminate].
    cbn [bind] in Ef.
    destruct (existsb (fun k => negb (hashable k)) l); [discriminate|].
    destruct (find (fun k => negb (is_str k)) l) as [y|] eqn:Efind.
    { destruct y; discriminate. }
    cbn [bind] in Ef. inversion Ef; subst t.
    rewrite (py_iter_len keys l Ei) in Ec. inversion Ec; subst n.
    pose proof (py_iter_truthy keys l Ei Hk) as Hne.
    pose proof (strs_of_length l Efind) as Hlen.
    assert (Hks : strs_of l <> []).
    { intros H0. rewrite H0 in Hlen. destruct l; [congruence|].
      simpl in Hlen. lia. }
    pose proof (filter_len_bounds (fetched language category)
                  (strs_of l) Hks) as Hb.
    unfold _filter_translations_by_keys in Hb. rewrite <- Hlen.
    exact Hb.
Qed.

Lemma esphome_counts_witness :
  exists saved t n,
    stored (snd (esphome_try (B := Reference.cpython)
                   (P := Sample.platform) (u "en") (u "state")
                   (PList [PStr (u "title"); PStr (u "title")])
                   Sample.hass1))
    = Some saved
    /\ get saved (u "translations_count") = Some (PInt t)
    /\ get saved (u "requested_keys_count") = Some (PInt n)
    /\ (0 < t <= n)%Z.
Proof.
  destruct (esphome_counts Reference.cpython Sample.platform
              (u "en") (u "state")
              (PList [PStr (u "title"); PStr (u "title")]) Sample.hass1
              (snd (esphome_try (B := Reference.cpython)
                      (P := Sample.platform) (u "en") (u "state")
                      (PList [PStr (u "title"); PStr (u "title")])
                      Sample.hass1)))
    as (saved & t & n & H1 & H2 & H3 & _ & H5).
  - vm_compute. reflexivity.
  - exists saved, t, n. repeat split; try assumption;
      apply H5; reflexivity.
Defined.

(** ** The handlers that answer the caller *)

Section ResponseFacts.

Context {B : Builtins} {P : Platform}.

Lemma fetch_run (language category : pystr) (h : hass) :
  _fetch_translations_for_category language category h
  = (Ret (fetched language category), after_fetch language category h).
Proof.
  unfold _fetch_translations_for_category, fetched, after_fetch,
    mtry, lift, mbind, logger, ret, logged.
  destruct (async_get_translations language category); reflexivity.
Qed.

Lemma raw_fold_run (language : pystr) (categories : list pystr) :
  forall (result : dict (dict pystr)) (h : hass),
    mfold (raw_step language) categories result h
    = (Ret (fold_left
              (fun result category =>
                 match fetched language category with
                 | [] => result
                 | _ :: _ => set result category (fetched language category)
                 end)
              categories result),
       after_fetches language categories h).
Proof.
  induction categories as [|c r IH]; intros result h; [reflexivity|].
  cbn [mfold]. unfold mbind at 1. unfold raw_step at 1.
  unfold mbind at 1. rewrite fetch_run. unfold ret at 1.
  rewrite IH. reflexivity.
Qed.

Lemma raw_fold_get (language : pystr) (categories : list pystr) :
  forall (result : dict (dict pystr)) (c : pystr),
    get (fold_left
           (fun result category =>
              match fetched language category with
              | [] => result
              | _ :: _ => set result category (fetched language category)
              end)
           categories result) c
    = if existsb (PyStr.eqb c) categories
      then match fetched language c with
           | [] => get result c
           | _ :: _ => Some (fetched language c)
           end
      else get result c.
Proof.
  induction categories as [|c0 r IH]; intros result c; [reflexivity|].
  cbn [fold_left existsb]. rewrite IH.
  destruct (PyStr.eqb c c0) eqn:E.
  - apply eqb_eq in E. subst c0. cbn [orb].
    destruct (fetched language c) as [|x t] eqn:Ef.
    + destruct (existsb (PyStr.eqb c) r); reflexivity.
    + rewrite get_set_same. destruct (existsb (PyStr.eqb c) r); reflexivity.
  - cbn [orb].
    assert (Hget : get (match fetched language c0 with
                        | [] => result
                        | _ :: _ => set result c0 (fetched language c0)
                        end) c = get result c).
    { destruct (fetched language c0); [reflexivity|].
      apply get_set_other. intros ->. rewrite eqb_refl in E. discriminate. }
    rewrite Hget. reflexivity.
Qed.

Lemma raw_fold_NoDup (language : pystr) (categories : list pystr) :
  forall result : dict (dict pystr),
    NoDup (keys result) ->
    NoDup (keys (fold_left
                   (fun result category =>
                      match fetched language category with
                      | [] => result
                      | _ :: _ =>
                          set result category (fetched language category)
                      end)
                   categories result)).
Proof.
  induction categories as [|c0 r IH]; intros result H; [assumption|].
  cbn [fold_left]. apply IH.
  destruct (fetched language c0); [assumption|].
  apply NoDup_keys_set. assumption.
Qed.

Lemma raw_fold_length (language : pystr) (categories : list pystr) :
  forall result : dict (dict pystr),
    (List.length (fold_left
                    (fun result category =>
                       match fetched language category with
                       | [] => result
                       | _ :: _ =>
                           set result category (fetched language category)
                       end)
                    categories result)
     <= List.length result + List.length categories)%nat.
Proof.
  induction categories as [|c0 r IH]; intros result; simpl; [lia|].
  match goal with
  | |- context [fold_left ?f r ?a] => specialize (IH a)
  end.
  destruct (fetched language c0) as [|x t]; [lia|].
  pose proof (length_set result c0 (x :: t)). lia.
Qed.

Lemma after_fetches_state (language : pystr) (categories : list pystr) :
  forall h,
    let h' := after_fetches language categories h in
    stored h' = stored h /\ files h' = files h /\ states h' = states h
    /\ server_port h' = server_port h.
Proof.
  unfold after_fetches.
  induction categories as [|c r IH]; intros h; cbv zeta;
    [repeat split|].
  cbn [fold_left].
  destruct (IH (after_fetch language c h)) as (H1 & H2 & H3 & H4).
  destruct (after_fetch_state language c h) as (G1 & G2 & G3 & G4 & _).
  repeat split; congruence.
Qed.

End ResponseFacts.

(** X13.  The [try] block of [handle_get_raw_translations] never
    raises, so the handler always returns the response without an
    [error]: its [categories] are exactly the categories of
    [TRANSLATION_CATEGORIES] whose translations were fetched and are not
    empty (a category whose fetch raises is left out and logged),
    [total_categories] is their number, at most 16, and the store, the
    entities and the files are not touched. *)
Theorem raw_translations_response (P : Platform)
    (language : pystr) (h : hass) :
  let categories := raw_categories language TRANSLATION_CATEGORIES in
  let h' := after_fetches language TRANSLATION_CATEGORIES h in
  (exists response,
      get_raw_translations_try language h = (Ret response, h')
      /\ get response (u "language") = Some (PStr language)
      /\ get response (u "categories")
         = Some (pydict_of_grouped categories)
      /\ get response (u "total_categories")
         = Some (PInt (len categories))
      /\ get response (u "error") = None)
  /\ (forall c t,
         get categories c = Some t <->
         In c TRANSLATION_CATEGORIES
         /\ async_get_translations language c = Ret t /\ t <> [])
  /\ NoDup (keys categories)
  /\ (0 <= len categories <= 16)%Z
  /\ (stored h' = stored h /\ states h' = states h
      /\ files h' = files h).
Proof.
  cbv zeta.
  split; [|split; [|split; [|split]]].
  - eexists. split.
    + unfold get_raw_translations_try, mbind.
      rewrite raw_fold_run. reflexivity.
    + repeat split.
  - intros c t. unfold raw_categories. rewrite raw_fold_get.
    destruct (existsb (PyStr.eqb c) TRANSLATION_CATEGORIES) eqn:E.
    + apply existsb_eqb_In in E. unfold fetched.
      destruct (async_get_translations language c) as [[|x t0]|e].
      * split; [discriminate | intros (_ & H & Hne); congruence].
      * split.
        { intros H; inversion H; subst.
          split; [assumption | split; [reflexivity | discriminate]]. }
        { intros (_ & H & _). congruence. }
      * split; [discriminate | intros (_ & H & _); discriminate].
    + split; [discriminate|].
      intros (Hin & _). apply existsb_eqb_In in Hin. congruence.
  - apply raw_fold_NoDup. constructor.
  - unfold len, raw_categories.
    pose proof (raw_fold_length language TRANSLATION_CATEGORIES []) as H.
    assert (H16 : List.length TRANSLATION_CATEGORIES = 16%nat)
      by reflexivity.
    rewrite H16 in H. cbn [List.length] in H. split; lia.
  - destruct (after_fetches_state language TRANSLATION_CATEGORIES h)
      as (H1 & H2 & H3 & _).
    auto.
Qed.

Lemma raw_translations_response_witness :
  get (raw_categories (P := Sample.platform)
         (u "en") TRANSLATION_CATEGORIES) (u "state")
  = Some Sample.translations.
Proof.
  apply (proj1 (proj2 (raw_translations_response
                         Sample.platform (u "en") Sample.hass1))).
  split; [|split].
  - right. left. reflexivity.
  - reflexivity.
  - discriminate.
Defined.




(** ** Media cover: frame and log *)

Lemma cover_outcome_false (P : Platform) (entity_id size : pystr)
    (h : hass) :
  fst (cover_outcome entity_id size h) = false ->
  exists m, snd (cover_outcome entity_id size h) = logged m h
            /\ is_error m = true.
Proof.
  unfold cover_outcome.
  destruct (get (states h) entity_id) as [[st attributes]|];
    [|intros _; eexists; split; reflexivity].
  destruct (truthy (entity_picture_of attributes));
    cbn [negb]; [|intros _; eexists; split; reflexivity].
  destruct (image_url (entity_picture_of attributes) (server_port h))
    as [url|e]; [|intros _; eexists; split; reflexivity].
  destruct (get COVER_SIZES size) as [target_size|];
    [|intros _; eexists; split; reflexivity].
  destruct (session_get url) as [resp|e];
    [|intros _; eexists; split; reflexivity].
  destruct (Z.eqb (status resp) 200); cbn [negb];
    [|intros _; eexists; split; reflexivity].
  destruct (read resp) as [image_data|e];
    [|intros _; eexists; split; reflexivity].
  unfold process_outcome.
  destruct (load_thumbnail image_data target_size) as [img|e];
    [|intros _; eexists; split; reflexivity].
  destruct (os_makedirs output_dir) as [[]|e];
    [|intros _; eexists; split; reflexivity].
  destruct (save_check cover_path (center_on_canvas img target_size))
    as [[]|e]; [discriminate | intros _; eexists; split; reflexivity].
Qed.

(** X15.  [handle_save_media_cover] never raises and never touches the
    store or the state of any entity.  Each call adds exactly three
    lines to the log: the start, then either the save of the cover
    followed by the success line, in which case the cover file exists,
    or an error followed by the failure line. *)
Theorem save_media_cover_frame (P : Platform)
    (entity_id size : pystr) (h : hass) :
  let h' := snd (handle_save_media_cover entity_id size h) in
  handle_save_media_cover entity_id size h = (Ret tt, h')
  /\ stored h' = stored h
  /\ states h' = states h
  /\ server_port h' = server_port h
  /\ exists final m,
      log h' = final :: m :: InfoProcessingCover entity_id size :: log h
      /\ ((final = InfoCoverProcessed entity_id
           /\ (exists target_size,
                  get COVER_SIZES size = Some target_size
                  /\ m = InfoCoverSaved cover_path target_size)
           /\ contains (files h') cover_path = true)
          \/ (final = ErrCoverFailed entity_id /\ is_error m = true)).
Proof.
  cbv zeta.
  set (h0 := logged (InfoProcessingCover entity_id size) h).
  assert (Hrun : handle_save_media_cover entity_id size h
                 = (Ret tt,
                    logged (if fst (cover_outcome entity_id size h0)
                            then InfoCoverProcessed entity_id
                            else ErrCoverFailed entity_id)
                      (snd (cover_outcome entity_id size h0)))).
  { unfold handle_save_media_cover, mbind, mtry, logger.
    rewrite download_and_process_cover_run.
    fold (logged (InfoProcessingCover entity_id size) h). fold h0.
    destruct (fst (cover_outcome entity_id size h0)); reflexivity. }
  rewrite Hrun. cbn [snd].
  split; [reflexivity|].
  destruct (fst (cover_outcome entity_id size h0)) eqn:Eb.
  - destruct (cover_outcome_true P entity_id size h0 Eb)
      as (st & at_ & url & ts & resp & data & img & _ & _ & _ & Hs & _
          & _ & _ & _ & _ & _ & Hw).
    rewrite Hw. cbn.
    split; [reflexivity|]. split; [reflexivity|]. split; [reflexivity|].
    eexists. eexists. split; [reflexivity|]. left.
    split; [reflexivity|]. split.
    + exists ts. split; [exact Hs | reflexivity].
    + unfold contains. rewrite get_set_same. reflexivity.
  - destruct (cover_outcome_false P entity_id size h0 Eb) as (m & Hm & He).
    rewrite Hm. cbn.
    split; [reflexivity|]. split; [reflexivity|]. split; [reflexivity|].
    exists (ErrCoverFailed entity_id), m. split; [reflexivity|].
    right. split; [reflexivity | assumption].
Qed.

(** ** Life cycle *)

Lemma get_dict_remove {V} (d : dict V) (k k' : pystr) :
  get (dict_remove d k) k' = if PyStr.eqb k k' then None else get d k'.
Proof.
  induction d as [|[k0 v0] r IH]; simpl.
  - destruct (PyStr.eqb k k'); reflexivity.
  - destruct (PyStr.eqb k0 k) eqn:E0.
    + rewrite IH. apply eqb_eq in E0. subst k0.
      destruct (PyStr.eqb k k'); reflexivity.
    + simpl. rewrite IH.
      destruct (PyStr.eqb k0 k') eqn:E1; [|reflexivity].
      apply eqb_eq in E1. subst k0.
      rewrite eqb_sym, E0. reflexivity.
Qed.

Lemma get_remove_all {V} (names : list pystr) :
  forall (d : dict V) (k : pystr),
    get (fold_left (fun s name => dict_remove s name) names d) k
    = if existsb (PyStr.eqb k) names then None else get d k.
Proof.
  induction names as [|n r IH]; intros d k; [reflexivity|].
  cbn [fold_left existsb]. rewrite IH, get_dict_remove.
  rewrite (eqb_sym k n).
  destruct (PyStr.eqb n k); cbn [orb];
    destruct (existsb (PyStr.eqb k) r); reflexivity.
Qed.

Section LifeCycleFacts.

Context {B : Builtins} {P : Platform} {E : JsonEncoder}.

Lemma setup_sensor_nonempty (d : dict pyval) :
  d <> [] ->
  setup_sensor (Some d)
  = (items <- py_items (get_default d (u "grouped_translations")
                          (PDict [])) ;;
     attributes <- restore_components (restored_attributes d) items ;;
     state <- state_text (get_default d (u "language")
                            (PStr (u "empty"))) ;;
     groups <- py_len (get_default d (u "grouped_translations")
                         (PDict [])) ;;
     Ret ((state, attributes), [InfoRestored groups]))%exc.
Proof. destruct d; [congruence | reflexivity]. Qed.

Lemma restore_components_grouped (g : dict (dict pystr)) :
  (forall d, json_dumps_value (pydict_of_strs d) = Ret (json_dumps d)) ->
  forall attributes,
    restore_components attributes
      (map (fun kv => (fst kv, pydict_of_strs (snd kv))) g)
    = Ret (add_component_attributes attributes g).
Proof.
  intros Hc. unfold add_component_attributes.
  induction g as [|[c inner] r IH]; intros attributes; [reflexivity|].
  cbn [map fst snd restore_components fold_left].
  rewrite Hc. cbn [bind]. apply IH.
Qed.

End LifeCycleFacts.

(** X16.  Restart round trip: after a successful call of the ESPHome
    handler, setting the entry up again from what the handler stored
    succeeds and sets the sensor to exactly the state and attributes
    the handler had published, given that [json.dumps] writes a stored
    bucket as it wrote it before; the store is left as it is and the
    four services are registered. *)
Theorem restart_restores_sensor (B : Builtins) (P : Platform)
    (E : JsonEncoder) (language category : pystr) (keys : pyval)
    (h h2 : hass) (i : instance) :
  esphome_try language category keys h = (Ret tt, h2) ->
  (forall d, json_dumps_value (pydict_of_strs d) = Ret (json_dumps d)) ->
  stored (core i) = stored h2 ->
  exists i',
    async_setup_entry i = (Ret true, i')
    /\ get (states (core i')) SENSOR_ENTITY_ID
       = get (states h2) SENSOR_ENTITY_ID
    /\ stored (core i') = stored h2
    /\ (forall name, In name service_names ->
                     contains (services i') name = true).
Proof.
  intros Ht Hc Hs. rewrite esphome_try_run in Ht. cbv zeta in Ht.
  destruct (flat_translations language category keys) as [t|e];
    [|discriminate].
  destruct (requested_count keys) as [n|e]; [|discriminate].
  inversion Ht as [Hh2]. clear Ht.
  set (h1 := after_fetch language category h) in *.
  set (g := group_translations t) in *.
  set (saved := update (loaded_or_empty (stored h1))
                  (status_fields language category g t n)).
  assert (Hsaved : stored h2 = Some saved) by (subst h2; reflexivity).
  assert (Hl : get saved (u "language") = Some (PStr language))
    by (apply get_update_in; reflexivity).
  assert (Hcat : get saved (u "category") = Some (PStr category))
    by (apply get_update_in; reflexivity).
  assert (Hg : get saved (u "grouped_translations")
               = Some (pydict_of_grouped g))
    by (apply get_update_in; reflexivity).
  assert (Htc : get saved (u "translations_count") = Some (PInt (len t)))
    by (apply get_update_in; reflexivity).
  assert (Hrc : get saved (u "requested_keys_count") = Some (PInt n))
    by (apply get_update_in; reflexivity).
  assert (Hne : saved <> []).
  { intros H0. rewrite H0 in Hl. discriminate. }
  assert (Hsensor : setup_sensor (Some saved)
                    = Ret ((language,
                            add_component_attributes
                              (sensor_attributes language category t n) g),
                           [InfoRestored (len g)])).
  { rewrite (setup_sensor_nonempty saved Hne).
    unfold get_default at 1. rewrite Hg.
    unfold pydict_of_grouped at 1. cbn [py_items bind].
    assert (Hattr : restored_attributes saved
                    = sensor_attributes language category t n).
    { unfold restored_attributes, sensor_attributes, get_default.
      rewrite Hl, Hcat, Htc, Hrc. reflexivity. }
    rewrite Hattr, (restore_components_grouped g Hc). cbn [bind].
    unfold get_default. rewrite Hl, Hg. cbn [state_text bind].
    unfold pydict_of_grouped. cbn [py_len bind].
    unfold len. rewrite length_map. reflexivity. }
  eexists. split.
  - unfold async_setup_entry. rewrite Hs, Hsaved, Hsensor. reflexivity.
  - cbn [core states stored]. split; [|split].
    + rewrite get_set_same. subst h2. cbn [esphome_done states].
      rewrite get_set_same. reflexivity.
    + congruence.
    + intros name Hin. unfold contains, register_services.
      cbn [services].
      destruct Hin as [<-|[<-|[<-|[<-|[]]]]];
        rewrite !get_set; reflexivity.
Qed.

Lemma sample_encoder_coherent (d : dict pystr) :
  json_dumps_value (JsonEncoder := sample_encoder) (pydict_of_strs d)
  = Ret (Reference.dumps d).
Proof.
  unfold pydict_of_strs. cbn [json_dumps_value sample_encoder].
  assert (H : str_items (map (fun kv => (fst kv, PStr (snd kv))) d)
              = Some d).
  { induction d as [|[k v] r IH]; [reflexivity|].
    cbn [map fst snd str_items]. rewrite IH. reflexivity. }
  rewrite H. reflexivity.
Qed.

Lemma restart_restores_sensor_witness :
  let h2 := snd (esphome_try (B := Reference.cpython)
                   (P := Sample.platform) (u "en") (u "state") PNone
                   Sample.hass1) in
  exists i',
    async_setup_entry (B := Reference.cpython) (E := sample_encoder)
      (instance_of h2)
    = (Ret true, i')
    /\ get (states (core i')) SENSOR_ENTITY_ID
       = get (states h2) SENSOR_ENTITY_ID.
Proof.
  cbv zeta.
  destruct (restart_restores_sensor Reference.cpython Sample.platform
              sample_encoder (u "en") (u "state") PNone Sample.hass1
              (snd (esphome_try (B := Reference.cpython)
                      (P := Sample.platform) (u "en") (u "state") PNone
                      Sample.hass1))
              (instance_of
                 (snd (esphome_try (B := Reference.cpython)
                         (P := Sample.platform) (u "en") (u "state") PNone
                         Sample.hass1))))
    as (i' & H1 & H2 & _).
  - vm_compute. reflexivity.
  - exact sample_encoder_coherent.
  - reflexivity.
  - exists i'. split; assumption.
Defined.

(** X17.  Unloading undoes a successful setup except for the store: a
    setup that succeeds sets the sensor and registers the four
    services, two of them answering only with a response; unloading
    then removes the sensor and the four services and clears the entry
    in [hass.data], while the stored record, every other entity and
    every other service are as they were before the setup. *)
Theorem setup_then_unload (B : Builtins) (E : JsonEncoder)
    (i i' : instance) :
  async_setup_entry i = (Ret true, i') ->
  (contains (states (core i')) SENSOR_ENTITY_ID = true
   /\ get (services i') (u "get_raw_translations") = Some true
   /\ get (services i') (u "get_translations") = Some true
   /\ get (services i') (u "get_translations_esphome") = Some false
   /\ get (services i') (u "save_media_cover") = Some false
   /\ domain_data i' = true
   /\ stored (core i') = stored (core i)
   /\ files (core i') = files (core i))
  /\ (exists i'',
         async_unload_entry i' = (Ret true, i'')
         /\ get (states (core i'')) SENSOR_ENTITY_ID = None
         /\ (forall name, In name service_names ->
                          get (services i'') name = None)
         /\ domain_data i'' = false
         /\ stored (core i'') = stored (core i)
         /\ (forall entity_id,
                entity_id <> SENSOR_ENTITY_ID ->
                get (states (core i'')) entity_id
                = get (states (core i)) entity_id)
         /\ (forall name,
                ~ In name service_names ->
                get (services i'') name = get (services i) name)).
Proof.
  unfold async_setup_entry.
  destruct (setup_sensor (stored (core i))) as [[[state attributes] msgs]|e];
    [|discriminate].
  intros H. inversion H; subst i'. clear H. cbn [core services domain_data
    stored files states].
  split.
  - unfold contains, register_services.
    rewrite !get_set. repeat split.
  - eexists. split; [reflexivity|].
    cbn [core services domain_data stored states].
    split; [|split; [|split; [|split; [|split]]]].
    + rewrite get_dict_remove, eqb_refl. reflexivity.
    + intros name Hin. rewrite get_remove_all.
      apply existsb_eqb_In in Hin. rewrite Hin. reflexivity.
    + reflexivity.
    + reflexivity.
    + intros entity_id Hne. rewrite get_dict_remove.
      assert (Hb : PyStr.eqb SENSOR_ENTITY_ID entity_id = false)
        by (apply eqb_neq; congruence).
      rewrite Hb. apply get_set_other. congruence.
    + intros name Hnin. rewrite get_remove_all.
      destruct (existsb (PyStr.eqb name) service_names) eqn:Ex.
      * apply existsb_eqb_In in Ex. contradiction.
      * unfold register_services.
        rewrite !get_set_other; [reflexivity| | | |];
          intros <-; apply Hnin; simpl; auto.
Qed.

Lemma setup_then_unload_witness :
  exists i' i'',
    async_setup_entry (B := Reference.cpython) (E := sample_encoder)
      (instance_of Sample.hass1) = (Ret true, i')
    /\ async_unload_entry i' = (Ret true, i'')
    /\ get (states (core i'')) SENSOR_ENTITY_ID = None
    /\ stored (core i'') = stored Sample.hass1.
Proof.
  eexists.
  destruct (setup_then_unload Reference.cpython sample_encoder
              (instance_of Sample.hass1)
              (snd (async_setup_entry (B := Reference.cpython)
                      (E := sample_encoder) (instance_of Sample.hass1))))
    as (_ & i'' & H1 & H2 & _ & _ & H3 & _).
  - vm_compute. reflexivity.
  - exists i''. split; [vm_compute; reflexivity|].
    split; [exact H1|]. split; [exact H2 | exact H3].
Defined.

(** X18.  A stored record whose [grouped_translations] is not a dict
    stops the setup: [async_setup_entry] raises [AttributeError] at
    [.items()], nothing catches it, and it leaves no sensor change and
    no service registered; only the entry in [hass.data] has been
    made. *)
Theorem setup_fails_on_bad_record (B : Builtins) (E : JsonEncoder)
    (i : instance) (stored_data : dict pyval) (v : pyval) :
  stored (core i) = Some stored_data ->
  get stored_data (u "grouped_translations") = Some v ->
  (forall items, v <> PDict items) ->
  async_setup_entry i
  = (Raise AttributeError,
     mk_instance (core i) true (services i) (lifecycle_log i)).
Proof.
  intros Hs Hg Hv.
  assert (Hne : stored_data <> []).
  { intros H0. rewrite H0 in Hg. discriminate. }
  unfold async_setup_entry.
  rewrite Hs, (setup_sensor_nonempty stored_data Hne).
  unfold get_default at 1. rewrite Hg.
  destruct v; try reflexivity.
  exfalso. apply (Hv items). reflexivity.
Qed.

Lemma setup_fails_on_bad_record_witness :
  async_setup_entry (B := Reference.cpython) (E := sample_encoder)
    (instance_of
       (mk_hass (Some [ (u "grouped_translations", PList []) ])
          [] 8123 [] []))
  = (Raise AttributeError,
     mk_instance
       (mk_hass (Some [ (u "grouped_translations", PList []) ])
          [] 8123 [] [])
       true [] []).
Proof.
  apply (setup_fails_on_bad_record Reference.cpython sample_encoder
           (instance_of
              (mk_hass (Some [ (u "grouped_translations", PList []) ])
                 [] 8123 [] []))
           [ (u "grouped_translations", PList []) ] (PList [])).
  - reflexivity.
  - reflexivity.
  - discriminate.
Defined.

(** ** Config flow *)

(** X19.  Single instance: whatever the user submits and however many
    times, the flow never makes a second entry; starting without an
    entry, the entries are at most one, titled [Display Tools] with
    empty data, and once it exists every further step aborts with
    [single_instance_allowed]. *)
Theorem config_flow_single_instance
    (inputs : list (option (dict pyval))) :
  let entries := fold_left flow_step inputs [] in
  (entries = [] \/ entries = [(u "Display Tools", [])])
  /\ (entries = [] <-> Forall (fun input => input = None) inputs)
  /\ (forall input,
         entries <> [] ->
         async_step_user entries input
         = Abort (u "single_instance_allowed")).
Proof.
  cbv zeta.
  assert (Hfix : forall l, fold_left flow_step l [(u "Display Tools", [])]
                           = [(u "Display Tools", [])]).
  { induction l as [|x l IH]; [reflexivity | exact IH]. }
  split; [|split].
  - induction inputs as [|[d|] l IH]; [left; reflexivity | | exact IH].
    right. apply Hfix.
  - induction inputs as [|[d|] l IH].
    + split; [constructor | reflexivity].
    + cbn [fold_left]. change (flow_step [] (Some d))
        with [(u "Display Tools", @nil (pystr * pyval))].
      rewrite Hfix. split; [discriminate|].
      intros H. inversion H; discriminate.
    + cbn [fold_left]. change (flow_step [] None) with (@nil config_entry).
      rewrite IH. split.
      * intros H. constructor; [reflexivity | assumption].
      * intros H. inversion H; assumption.
  - intros input Hne.
    destruct (fold_left flow_step inputs []); [congruence | reflexivity].
Qed.

Lemma config_flow_single_instance_witness :
  async_step_user (fold_left flow_step [None; Some []; Some []] []) (Some [])
  = Abort (u "single_instance_allowed").
Proof.
  apply (proj2 (proj2 (config_flow_single_instance
                         [None; Some []; Some []]))).
  discriminate.
Defined.


